(** * lua-resty-saml: the Lua binding [lua_saml.c]

    A shallow embedding of the C functions that [lua_saml.c] registers in the
    [saml] module, over a model of the part of the Lua C API they use, and the
    properties of the binding that the specification states.

    The binding is glue: every function reads its arguments from the Lua
    stack, calls libxml2, xmlsec or the SAML engine of [saml.c], and pushes
    the results.  Those callees are not part of this file; they are the fields
    of the [Backend] interface, and every call is recorded in a trace so that
    what the binding asked of them (and in which order) can be observed. *)

From stdpp Require Import base gmap strings list pretty.

Open Scope string_scope.
Open Scope list_scope.
Open Scope Z_scope.

(** ** Values of the host runtime *)

(** A native pointer is an address; [NULL] is address 0. *)
Definition ptr := Z.
Definition NULL : ptr := 0.

(** Keys of a table.  The binding reads and writes tables through string
    fields ([lua_getfield], [lua_settable] with a name) and integer indices
    ([lua_rawgeti], [lua_settable] with [j + 1]) only. *)
Inductive lua_key :=
| KNum (n : Z)
| KStr (s : string).

#[global] Instance lua_key_eq_dec : EqDecision lua_key.
Proof. solve_decision. Defined.

#[global] Instance lua_key_countable : Countable lua_key.
Proof.
  refine (inj_countable'
            (fun k => match k with KNum n => inl n | KStr s => inr s end)
            (fun x => match x with inl n => KNum n | inr s => KStr s end) _).
  intros []; reflexivity.
Defined.

(** A Lua value, by type tag.  Numbers are the integers ([lua_pushinteger] is
    the only producer in the binding).  A table is the finite map of its
    non-nil entries; it carries no metatable. *)
#[warnings="-register-all"] Inductive lua_value :=
| LNil
| LBoolean (b : bool)
| LLightUserdata (p : ptr)
| LNumber (n : Z)
| LString (s : string)
| LTable (t : gmap lua_key lua_value)
| LFunction (id : Z)
| LUserdata (block : ptr)
| LThread (id : Z).

(** [lua_type] and [lua_typename]. *)
Inductive lua_type_tag :=
| LUA_TNONE | LUA_TNIL | LUA_TBOOLEAN | LUA_TLIGHTUSERDATA | LUA_TNUMBER
| LUA_TSTRING | LUA_TTABLE | LUA_TFUNCTION | LUA_TUSERDATA | LUA_TTHREAD.

#[global] Instance lua_type_tag_eq_dec : EqDecision lua_type_tag.
Proof. solve_decision. Defined.

Definition type_of_value (v : lua_value) : lua_type_tag :=
  match v with
  | LNil => LUA_TNIL
  | LBoolean _ => LUA_TBOOLEAN
  | LLightUserdata _ => LUA_TLIGHTUSERDATA
  | LNumber _ => LUA_TNUMBER
  | LString _ => LUA_TSTRING
  | LTable _ => LUA_TTABLE
  | LFunction _ => LUA_TFUNCTION
  | LUserdata _ => LUA_TUSERDATA
  | LThread _ => LUA_TTHREAD
  end.

Definition lua_typename (t : lua_type_tag) : string :=
  match t with
  | LUA_TNONE => "no value"
  | LUA_TNIL => "nil"
  | LUA_TBOOLEAN => "boolean"
  | LUA_TLIGHTUSERDATA => "userdata"
  | LUA_TNUMBER => "number"
  | LUA_TSTRING => "string"
  | LUA_TTABLE => "table"
  | LUA_TFUNCTION => "function"
  | LUA_TUSERDATA => "userdata"
  | LUA_TTHREAD => "thread"
  end.

(** ** Native records of [saml.h] *)

(** [saml_doc_opts_t]: three optional C strings ([None] is [NULL]). *)
Record saml_doc_opts_t := {
  id_attr : option string;
  insert_after_ns : option string;
  insert_after_el : option string
}.

(** [saml_attr_t]: the name of an attribute and the array of its values, each
    of them a C string or [NULL].  [num_values] is the number of entries of
    [values], which is what the engine's array contract says. *)
Record saml_attr_t := {
  name : option string;
  values : list (option string)
}.

Definition num_values (a : saml_attr_t) : Z := Z.of_nat (length (values a)).

(** The two key formats the binding asks xmlsec for. *)
Inductive xmlSecKeyDataFormat :=
| xmlSecKeyDataFormatPem
| xmlSecKeyDataFormatCertPem.

(** ** Calls into libxml2, xmlsec and the engine

    One event per call, with its arguments and what it returned. *)
Inductive event :=
| EvXmlReadMemory (buf : string) (doc : ptr)
| EvXmlReadFile (filename : string) (doc : ptr)
| EvXmlDocDumpMemory (doc : ptr) (buf : string)
| EvXmlFree
| EvXmlFreeDoc (doc : ptr)
| EvKeyLoadMemory (data : string) (fmt : xmlSecKeyDataFormat) (key : ptr)
| EvKeyLoad (file : string) (fmt : xmlSecKeyDataFormat) (key : ptr)
| EvKeysMngrCreate (mngr : ptr)
| EvKeysMngrInit (mngr : ptr) (res : Z)
| EvKeysMngrAdoptKey (mngr key : ptr) (res : Z)
| EvKeysMngrDestroy (mngr : ptr)
| EvTransformFindByHref (href : string) (id : ptr)
| EvSamlDocAttrs (doc : ptr) (res : Z) (attrs : list saml_attr_t)
| EvSamlFreeAttrs (attrs : list saml_attr_t)
| EvSamlSignDoc (key transform_id doc : ptr) (opts : saml_doc_opts_t) (res : Z)
| EvSamlVerifyBinary (cert transform_id : ptr) (data sig : string) (res : Z)
| EvSamlVerifyDoc (mngr doc : ptr) (id_attr : option string) (res : Z).

(** What a callee returns may depend on everything that happened before. *)
Definition world := list event.

(** An entry of xmlsec's list of registered transforms: the algorithm URI and
    the transform id (the address of the transform's class). *)
Record transform_klass := {
  href : string;
  klass_id : ptr
}.

(** The callees, as an interface.  The C prototypes are kept: pointers are
    addresses, [int] results are integers. *)
Class Backend := {
  xmlReadMemory : world -> string -> ptr;
  xmlReadFile : world -> string -> ptr;
  xmlDocDumpMemory : world -> ptr -> string;
  xmlSecCryptoAppKeyLoadMemory : world -> string -> xmlSecKeyDataFormat -> ptr;
  xmlSecCryptoAppKeyLoad : world -> string -> xmlSecKeyDataFormat -> ptr;
  xmlSecKeysMngrCreate : world -> ptr;
  xmlSecCryptoAppDefaultKeysMngrInit : world -> ptr -> Z;
  xmlSecCryptoAppDefaultKeysMngrAdoptKey : world -> ptr -> ptr -> Z;
  xmlSecTransformIdsGet : world -> list transform_klass;
  saml_doc_attrs : world -> ptr -> Z * list saml_attr_t;
  saml_sign_doc : world -> ptr -> ptr -> ptr -> saml_doc_opts_t -> Z;
  saml_verify_binary : world -> ptr -> ptr -> string -> string -> Z;
  saml_verify_doc : world -> ptr -> ptr -> option string -> Z;
  (** [luaH_getn]: the length [#t] of a table (a border of it). *)
  luaH_getn : gmap lua_key lua_value -> Z;
  (** [lua_number2str]: how the runtime prints a number. *)
  lua_number2str : Z -> string
}.

(** ** The state and the monad of a C function *)

Record lua_State := {
  stack : list lua_value;
  trace : world
}.

(** [luaL_argerror]: the error a failed argument check raises. *)
Inductive lua_error :=
| ArgError (narg : Z) (extramsg : string).

(** A C function runs to a value, raises a Lua error (a [longjmp] out of the
    function: nothing after the raising call runs), or leaves the model
    (misuse of the stack, indexing a value that is not a table). *)
Inductive outcome (A : Type) :=
| Ok (a : A) (L : lua_State)
| Raise (e : lua_error) (L : lua_State)
| Stuck.
Arguments Ok {A} a L.
Arguments Raise {A} e L.
Arguments Stuck {A}.

Definition M (A : Type) : Type := lua_State -> outcome A.

#[global] Instance M_ret : MRet M := fun A a L => Ok a L.
#[global] Instance M_bind : MBind M := fun A B f m L =>
  match m L with
  | Ok a L' => f a L'
  | Raise e L' => Raise e L'
  | Stuck => Stuck
  end.

#[global] Instance M_fmap : FMap M := fun A B f m L =>
  match m L with
  | Ok a L' => Ok (f a) L'
  | Raise e L' => Raise e L'
  | Stuck => Stuck
  end.

Definition raise {A} (e : lua_error) : M A := fun L => Raise e L.
Definition stuck {A} : M A := fun _ => Stuck.
Definition get_stack : M (list lua_value) := fun L => Ok (stack L) L.
Definition put_stack (st : list lua_value) : M unit :=
  fun L => Ok tt {| stack := st; trace := trace L |}.

(** A call of a callee: ask the oracle in the current world, log the event. *)
Definition extern {A} (oracle : world -> A) (ev : A -> event) : M A :=
  fun L => let r := oracle (trace L) in
           Ok r {| stack := stack L; trace := trace L ++ [ev r] |}.

(** A callee without a result. *)
Definition extern_void (ev : event) : M unit :=
  fun L => Ok tt {| stack := stack L; trace := trace L ++ [ev] |}.

(** A Lua string may hold NUL bytes; a callee that is given it as a C string
    ([luaL_checklstring] without a length) sees it up to the first one. *)
Fixpoint c_str (s : string) : string :=
  match s with
  | EmptyString => EmptyString
  | String c r => if Ascii.eqb c Ascii.zero then EmptyString else String c (c_str r)
  end.

(** ** The Lua C API, as far as the binding uses it *)

Section LuaApi.
Context {B : Backend}.

(** The stack slot an acceptable index names: 1 is the first argument, -1
    the top. *)
Definition slot (st : list lua_value) (idx : Z) : option nat :=
  if decide (0 < idx) then
    if decide (idx <= Z.of_nat (length st)) then Some (Z.to_nat (idx - 1)) else None
  else if decide (idx < 0) then
    if decide (0 <= Z.of_nat (length st) + idx)
    then Some (Z.to_nat (Z.of_nat (length st) + idx)) else None
  else None.

(** [index2adr]: [None] stands for a slot above the top ("none"). *)
Definition index2adr (st : list lua_value) (idx : Z) : option lua_value :=
  i ← slot st idx; st !! i.

(** [lua_settop]: a non-negative index sets the top, filling with nil; a
    negative one is relative to the current top, and must not go below the
    base of the stack. *)
Definition lua_settop (idx : Z) : M unit :=
  st ← get_stack;
  if decide (0 <= idx) then
    put_stack (take (Z.to_nat idx) st ++ replicate (Z.to_nat idx - length st)%nat LNil)
  else if decide (0 <= Z.of_nat (length st) + idx + 1) then
    put_stack (take (Z.to_nat (Z.of_nat (length st) + idx + 1)) st)
  else stuck.

(** [#define lua_pop(L,n) lua_settop(L, -(n)-1)] *)
Definition lua_pop (n : Z) : M unit := lua_settop (- n - 1).

Definition lua_type (idx : Z) : M lua_type_tag :=
  st ← get_stack;
  mret (match index2adr st idx with
        | Some v => type_of_value v
        | None => LUA_TNONE
        end).

Definition lua_isnil (idx : Z) : M bool :=
  t ← lua_type idx; mret (bool_decide (t = LUA_TNIL)).

Definition lua_isnone (idx : Z) : M bool :=
  t ← lua_type idx; mret (bool_decide (t = LUA_TNONE)).

(** [#define lua_isnoneornil(L, n) (lua_type(L, (n)) <= 0)] *)
Definition lua_isnoneornil (idx : Z) : M bool :=
  t ← lua_type idx; mret (bool_decide (t = LUA_TNONE \/ t = LUA_TNIL)).

(** [lua_touserdata]: the block of a full userdata, the pointer of a light
    one, [NULL] for everything else. *)
Definition lua_touserdata (idx : Z) : M ptr :=
  st ← get_stack;
  mret (match index2adr st idx with
        | Some (LUserdata p) => p
        | Some (LLightUserdata p) => p
        | _ => NULL
        end).

(** [lua_tolstring]: a string as it is; a number is converted, in its stack
    slot; [NULL] for everything else. *)
Definition lua_tolstring (idx : Z) : M (option string) :=
  st ← get_stack;
  match slot st idx with
  | Some i =>
      match st !! i with
      | Some (LString s) => mret (Some s)
      | Some (LNumber n) =>
          put_stack (<[i := LString (lua_number2str n)]> st);;
          mret (Some (lua_number2str n))
      | _ => mret None
      end
  | None => mret None
  end.

Definition push (v : lua_value) : M unit :=
  st ← get_stack; put_stack (st ++ [v]).

Definition lua_pushnil : M unit := push LNil.
Definition lua_pushboolean (b : Z) : M unit := push (LBoolean (bool_decide (b ≠ 0))).
Definition lua_pushinteger (n : Z) : M unit := push (LNumber n).
Definition lua_pushlightuserdata (p : ptr) : M unit := push (LLightUserdata p).
Definition lua_pushlstring (s : string) : M unit := push (LString s).
(** [lua_pushstring] copies a C string, given here by its content. *)
Definition lua_pushstring (s : string) : M unit := push (LString s).
Definition lua_newtable : M unit := push (LTable ∅).

(** [lua_getfield], [lua_rawgeti]: push [t[k]], nil when the entry is
    absent.  The value at [idx] is a table wherever the binding calls
    them. *)
Definition lua_getfield (idx : Z) (k : string) : M unit :=
  st ← get_stack;
  match index2adr st idx with
  | Some (LTable t) => push (default LNil (t !! KStr k))
  | _ => stuck
  end.

Definition lua_rawgeti (idx : Z) (n : Z) : M unit :=
  st ← get_stack;
  match index2adr st idx with
  | Some (LTable t) => push (default LNil (t !! KNum n))
  | _ => stuck
  end.

Definition key_of (v : lua_value) : option lua_key :=
  match v with
  | LNumber n => Some (KNum n)
  | LString s => Some (KStr s)
  | _ => None
  end.

(** [t[k] = v]: assigning nil removes the entry. *)
Definition table_set (k : lua_key) (v : lua_value)
    (t : gmap lua_key lua_value) : gmap lua_key lua_value :=
  match v with
  | LNil => delete k t
  | _ => <[k := v]> t
  end.

(** [lua_settable]: [t[k] = v] for the table [t] at [idx], the key just
    below the top and the value at the top; pops both. *)
Definition lua_settable (idx : Z) : M unit :=
  st ← get_stack;
  match slot st idx, index2adr st (-2), index2adr st (-1) with
  | Some i, Some k, Some v =>
      match st !! i, key_of k with
      | Some (LTable t), Some key =>
          put_stack (take (length st - 2)%nat (<[i := LTable (table_set key v t)]> st))
      | _, _ => stuck
      end
  | _, _, _ => stuck
  end.

(** [lua_objlen], for the types the binding asks it about. *)
Definition lua_objlen (idx : Z) : M Z :=
  st ← get_stack;
  match index2adr st idx with
  | Some (LTable t) => mret (luaH_getn t)
  | Some (LString s) => mret (Z.of_nat (String.length s))
  | Some (LNumber _) | Some (LUserdata _) => stuck
  | _ => mret 0
  end.

(** *** The auxiliary library *)

Definition luaL_argerror {A} (narg : Z) (extramsg : string) : M A :=
  raise (ArgError narg extramsg).

Definition luaL_typerror {A} (narg : Z) (tname : string) : M A :=
  t ← lua_type narg;
  luaL_argerror narg (tname +:+ " expected, got " +:+ lua_typename t).

Definition luaL_argcheck (cond : bool) (narg : Z) (extramsg : string) : M unit :=
  if cond then mret tt else luaL_argerror narg extramsg.

Definition luaL_checktype (narg : Z) (t : lua_type_tag) : M unit :=
  t' ← lua_type narg;
  if decide (t' = t) then mret tt else luaL_typerror narg (lua_typename t).

Definition luaL_checklstring (narg : Z) : M string :=
  s ← lua_tolstring narg;
  match s with
  | Some s => mret s
  | None => luaL_typerror narg (lua_typename LUA_TSTRING)
  end.

(** [for (i = start; i < start + count; i++) body], where the body may
    return from the function ([Some n]). *)
Fixpoint for_loop (count : nat) (i : Z) (body : Z -> M (option Z)) : M (option Z) :=
  match count with
  | O => mret None
  | S c =>
      r ← body i;
      match r with
      | Some n => mret (Some n)
      | None => for_loop c (i + 1) body
      end
  end.

End LuaApi.

(** ** The functions of [lua_saml.c]

    Each returns the number of results it leaves on top of the stack. *)

Section Binding.
Context {B : Backend}.

(** [parse] *)
Definition parse : M Z :=
  lua_settop 1;;
  buf ← luaL_checklstring 1;
  lua_pop 1;;
  doc ← extern (fun w => xmlReadMemory w buf) (EvXmlReadMemory buf);
  (if decide (doc = NULL) then lua_pushnil else lua_pushlightuserdata doc);;
  mret 1.

(** [parse_file] *)
Definition parse_file : M Z :=
  lua_settop 1;;
  filename ← c_str <$> luaL_checklstring 1;
  lua_pop 1;;
  doc ← extern (fun w => xmlReadFile w filename) (EvXmlReadFile filename);
  (if decide (doc = NULL) then lua_pushnil else lua_pushlightuserdata doc);;
  mret 1.

(** The value pushed for [attrs[i].values[j]]. *)
Definition push_value (v : option string) : M unit :=
  match v with
  | None => lua_pushnil
  | Some s => lua_pushstring s
  end.

(** The body of the inner loop of [attrs]: [list[j + 1] = values[j]] for
    the list on top of the stack. *)
Definition attrs_value_body (a : saml_attr_t) (j : Z) : M (option Z) :=
  lua_pushinteger (j + 1);;
  push_value (mjoin (values a !! Z.to_nat j));;
  lua_settable (-3);;
  mret None.

(** The body of the loop of [attrs]: [table[name] = value] for [attrs[i]],
    the value chosen by the [switch] on [num_values]. *)
Definition attrs_body (attrs : list saml_attr_t) (i : Z) : M (option Z) :=
  match attrs !! Z.to_nat i with
  | None => stuck
  | Some a =>
      match name a with
      | None => mret None
      | Some n =>
          lua_pushstring n;;
          (if decide (num_values a = 0) then
             lua_pushnil
           else if decide (num_values a = 1) then
             push_value (mjoin (values a !! 0%nat))
           else
             lua_newtable;;
             for_loop (Z.to_nat (num_values a)) 0 (attrs_value_body a);;
             mret tt);;
          lua_settable (-3);;
          mret None
      end
  end.

(** [attrs] *)
Definition attrs : M Z :=
  lua_settop 1;;
  doc ← lua_touserdata 1;
  luaL_argcheck (bool_decide (doc ≠ NULL)) 1 "`xmlDoc*' expected";;
  lua_pop 1;;
  r ← extern (fun w => saml_doc_attrs w doc) (fun r => EvSamlDocAttrs doc r.1 r.2);
  let attrs := r.2 in
  if decide (r.1 < 0) then
    lua_pushnil;;
    mret 1
  else
    lua_newtable;;
    for_loop (length attrs) 0 (attrs_body attrs);;
    extern_void (EvSamlFreeAttrs attrs);;
    mret 1.

(** [load_key] *)
Definition load_key : M Z :=
  lua_settop 1;;
  key_data ← luaL_checklstring 1;
  lua_pop 1;;
  key ← extern (fun w => xmlSecCryptoAppKeyLoadMemory w key_data xmlSecKeyDataFormatPem)
               (EvKeyLoadMemory key_data xmlSecKeyDataFormatPem);
  (if decide (key = NULL) then lua_pushnil else lua_pushlightuserdata key);;
  mret 1.

(** [load_cert] *)
Definition load_cert : M Z :=
  lua_settop 1;;
  cert_data ← luaL_checklstring 1;
  lua_pop 1;;
  cert ← extern (fun w => xmlSecCryptoAppKeyLoadMemory w cert_data xmlSecKeyDataFormatCertPem)
                (EvKeyLoadMemory cert_data xmlSecKeyDataFormatCertPem);
  lua_pushlightuserdata cert;;
  mret 1.

(** [load_cert_file] *)
Definition load_cert_file : M Z :=
  lua_settop 1;;
  cert_file ← c_str <$> luaL_checklstring 1;
  lua_pop 1;;
  cert ← extern (fun w => xmlSecCryptoAppKeyLoad w cert_file xmlSecKeyDataFormatCertPem)
                (EvKeyLoad cert_file xmlSecKeyDataFormatCertPem);
  (if decide (cert = NULL) then lua_pushnil else lua_pushlightuserdata cert);;
  mret 1.

(** The body of the loop of [create_keys_mngr]: adopt [keys[i]], or destroy
    the manager and return the failure. *)
Definition adopt_body (mngr : ptr) (i : Z) : M (option Z) :=
  lua_rawgeti 1 i;;
  key ← lua_touserdata 2;
  luaL_argcheck (bool_decide (key ≠ NULL)) 2 "`xmlSecKey*' expected";;
  a ← extern (fun w => xmlSecCryptoAppDefaultKeysMngrAdoptKey w mngr key)
             (EvKeysMngrAdoptKey mngr key);
  if decide (a ≠ 0) then
    extern_void (EvKeysMngrDestroy mngr);;
    lua_pop 2;;
    lua_pushnil;;
    lua_pushstring "adopt key failed";;
    mret (Some 2)
  else
    lua_pop 1;;
    mret None.

(** [create_keys_mngr], registered as [create_keys_manager] *)
Definition create_keys_mngr : M Z :=
  lua_settop 1;;
  luaL_checktype 1 LUA_TTABLE;;
  len ← lua_objlen 1;
  mngr ← extern xmlSecKeysMngrCreate EvKeysMngrCreate;
  if decide (mngr = NULL) then
    lua_pop 1;;
    lua_pushnil;;
    lua_pushstring "create keys manager failed";;
    mret 2
  else
    r ← extern (fun w => xmlSecCryptoAppDefaultKeysMngrInit w mngr) (EvKeysMngrInit mngr);
    if decide (r < 0) then
      extern_void (EvKeysMngrDestroy mngr);;
      lua_pop 1;;
      lua_pushnil;;
      lua_pushstring "initialize keys manager failed";;
      mret 2
    else
      ret ← for_loop (Z.to_nat len) 1 (adopt_body mngr);
      match ret with
      | Some n => mret n
      | None =>
          lua_pop 1;;
          lua_pushlightuserdata mngr;;
          lua_pushnil;;
          mret 2
      end.

(** Modelled from the spec: [xmlSecTransformIdListFindByHref] of xmlsec,
    which is not among the sources.  It is an exact string match of the URI
    against the fixed table of supported algorithm URIs, returning the
    first entry that matches and the unknown id ([NULL]) when there is
    none. *)
Fixpoint xmlSecTransformIdListFindByHref (ids : list transform_klass) (uri : string) : ptr :=
  match ids with
  | [] => NULL
  | k :: rest =>
      if decide (href k = uri) then klass_id k
      else xmlSecTransformIdListFindByHref rest uri
  end.

(** [find_transform_by_href] *)
Definition find_transform_by_href : M Z :=
  lua_settop 1;;
  uri ← c_str <$> luaL_checklstring 1;
  lua_pop 1;;
  transform_id ← extern (fun w => xmlSecTransformIdListFindByHref (xmlSecTransformIdsGet w) uri)
                        (EvTransformFindByHref uri);
  (if decide (transform_id = NULL) then lua_pushnil
   else lua_pushlightuserdata transform_id);;
  mret 1.

(** [sign_get_opts]: fills [opts] from the options table at index [i] and
    returns how many stack slots the caller has to pop. *)
Definition sign_get_opts (i : Z) : M (Z * saml_doc_opts_t) :=
  isnil ← lua_isnil i;
  if (isnil : bool) then
    mret (i, {| id_attr := None; insert_after_ns := None; insert_after_el := None |})
  else
    luaL_checktype i LUA_TTABLE;;
    lua_getfield i "id_attr";;
    lua_getfield i "insert_after";;
    isnil1 ← lua_isnil (i + 1);
    id ← (if (isnil1 : bool) then mret None else Some ∘ c_str <$> luaL_checklstring (i + 1));
    isnil2 ← lua_isnil (i + 2);
    if (isnil2 : bool) then
      mret (i + 2, {| id_attr := id; insert_after_ns := None; insert_after_el := None |})
    else
      luaL_checktype (i + 2) LUA_TTABLE;;
      len ← lua_objlen (i + 2);
      (if decide (len ≠ 2) then
         luaL_argerror i "insert_after must be a table of form {namespace, element}"
       else mret tt);;
      lua_rawgeti (i + 2) 1;;
      lua_rawgeti (i + 2) 2;;
      ns ← c_str <$> luaL_checklstring (i + 3);
      el ← c_str <$> luaL_checklstring (i + 4);
      mret (i + 4, {| id_attr := id; insert_after_ns := Some ns; insert_after_el := Some el |}).

(** [sign_doc] *)
Definition sign_doc : M Z :=
  lua_settop 4;;
  key ← lua_touserdata 1;
  luaL_argcheck (bool_decide (key ≠ NULL)) 1 "`xmlSecKey*' expected";;
  transform_id ← lua_touserdata 2;
  luaL_argcheck (bool_decide (transform_id ≠ NULL)) 2 "`xmlSecTransformId` expected";;
  doc ← lua_touserdata 3;
  luaL_argcheck (bool_decide (key ≠ NULL)) 3 "`xmlDoc*' expected";;
  o ← sign_get_opts 4;
  lua_pop o.1;;
  res ← extern (fun w => saml_sign_doc w key transform_id doc o.2)
               (EvSamlSignDoc key transform_id doc o.2);
  (if decide (res = 0) then lua_pushnil else lua_pushstring "saml sign failed");;
  mret 1.

(** [sign_xml] *)
Definition sign_xml : M Z :=
  lua_settop 4;;
  key ← lua_touserdata 1;
  luaL_argcheck (bool_decide (key ≠ NULL)) 1 "`xmlSecKey*' expected";;
  transform_id ← lua_touserdata 2;
  luaL_argcheck (bool_decide (transform_id ≠ NULL)) 2 "`xmlSecTransformId` expected";;
  data ← luaL_checklstring 3;
  doc ← extern (fun w => xmlReadMemory w data) (EvXmlReadMemory data);
  if decide (doc = NULL) then
    lua_settop 0;;
    lua_pushnil;;
    lua_pushstring "unable to parse xml string";;
    mret 2
  else
    o ← sign_get_opts 4;
    lua_pop o.1;;
    res ← extern (fun w => saml_sign_doc w key transform_id doc o.2)
                 (EvSamlSignDoc key transform_id doc o.2);
    (if decide (res = 0) then
       buf ← extern (fun w => xmlDocDumpMemory w doc) (EvXmlDocDumpMemory doc);
       lua_pushlstring buf;;
       extern_void EvXmlFree;;
       lua_pushnil
     else
       lua_pushnil;;
       lua_pushstring "saml sign failed");;
    extern_void (EvXmlFreeDoc doc);;
    mret 2.

(** [verify_binary] *)
Definition verify_binary : M Z :=
  lua_settop 4;;
  cert ← lua_touserdata 1;
  luaL_argcheck (bool_decide (cert ≠ NULL)) 1 "`xmlSecKey*' expected";;
  transform_id ← lua_touserdata 2;
  luaL_argcheck (bool_decide (transform_id ≠ NULL)) 2 "`xmlSecTransformId` expected";;
  data ← luaL_checklstring 3;
  sig ← luaL_checklstring 4;
  lua_pop 4;;
  res ← extern (fun w => saml_verify_binary w cert transform_id data sig)
               (EvSamlVerifyBinary cert transform_id data sig);
  if decide (res < 0) then
    lua_pushnil;;
    lua_pushstring "saml verify failed";;
    mret 2
  else
    lua_pushboolean (1 - res);;
    lua_pushnil;;
    mret 2.

(** [verify_doc].  Only [opts.id_attr] is set before the engine is called;
    the other two fields of [opts] are not initialised, so the engine is
    given the one field. *)
Definition verify_doc : M Z :=
  lua_settop 3;;
  mngr ← lua_touserdata 1;
  luaL_argcheck (bool_decide (mngr ≠ NULL)) 1 "`xmlSecKeysMngr*' expected";;
  doc ← lua_touserdata 2;
  luaL_argcheck (bool_decide (doc ≠ NULL)) 2 "`xmlDoc*' expected";;
  nn ← lua_isnoneornil 3;
  id ← (if (nn : bool) then
          none ← lua_isnone 3;
          lua_pop (if (none : bool) then 2 else 3);;
          mret None
        else
          luaL_checktype 3 LUA_TTABLE;;
          lua_getfield 3 "id_attr";;
          s ← luaL_checklstring 4;
          lua_pop 4;;
          mret (Some (c_str s)));
  res ← extern (fun w => saml_verify_doc w mngr doc id) (EvSamlVerifyDoc mngr doc id);
  if decide (res < 0) then
    lua_pushnil;;
    lua_pushstring "saml verify failed";;
    mret 2
  else
    lua_pushboolean (1 - res);;
    lua_pushnil;;
    mret 2.

(** ** A call from Lua

    The arguments are the whole stack of the callee; its results are the
    topmost values.  The events are those of this call. *)
Inductive call_result :=
| Returned (rets : list lua_value) (events : list event)
| Errored (e : lua_error) (events : list event)
| Undefined.

Definition lua_call (f : M Z) (args : list lua_value) (w : world) : call_result :=
  match f {| stack := args; trace := w |} with
  | Ok n L =>
      if decide (0 <= n <= Z.of_nat (length (stack L))) then
        Returned (drop (length (stack L) - Z.to_nat n)%nat (stack L))
                 (drop (length w) (trace L))
      else Undefined
  | Raise e L => Errored e (drop (length w) (trace L))
  | Stuck => Undefined
  end.

End Binding.

(** ** Reading a call's result *)

(** The events of a call, whatever its end. *)
Definition events_of (r : call_result) : list event :=
  match r with
  | Returned _ evs => evs
  | Errored _ evs => evs
  | Undefined => []
  end.

(** [t[k]] as Lua reads it: an absent entry is nil. *)
Definition table_get (t : gmap lua_key lua_value) (k : lua_key) : lua_value :=
  default LNil (t !! k).

(** A C string, or nil for [NULL]. *)
Definition value_or_nil (v : option string) : lua_value :=
  match v with
  | Some s => LString s
  | None => LNil
  end.

(** A key the manager [m] adopted. *)
Definition adopted (m : ptr) (e : event) : Prop :=
  exists k, e = EvKeysMngrAdoptKey m k 0.

(** ** The table [attrs] builds, as a function of the engine's array

    [values_from j vs t] is [t] after [t[j + 1] = v] for the values [vs] in
    order; [attr_value] is the value the [switch] picks; [store_attr] is one
    turn of the loop. *)
Fixpoint values_from (j : Z) (vs : list (option string))
    (t : gmap lua_key lua_value) : gmap lua_key lua_value :=
  match vs with
  | [] => t
  | v :: rest => values_from (j + 1) rest (table_set (KNum (j + 1)) (value_or_nil v) t)
  end.

Definition attr_value (a : saml_attr_t) : lua_value :=
  if decide (num_values a = 0) then LNil
  else if decide (num_values a = 1) then value_or_nil (mjoin (values a !! 0%nat))
  else LTable (values_from 0 (values a) ∅).

Definition store_attr (t : gmap lua_key lua_value) (a : saml_attr_t) : gmap lua_key lua_value :=
  match name a with
  | None => t
  | Some n => table_set (KStr n) (attr_value a) t
  end.

(** The reading of the attribute shape without the [NULL] cases: every
    attribute with exactly one value appears as a string. *)
Definition one_value_is_string `{B : Backend} (doc : ptr) (w : world) : Prop :=
  forall T evs a n,
    lua_call attrs [LLightUserdata doc] w = Returned [LTable T] evs ->
    a ∈ (saml_doc_attrs w doc).2 ->
    name a = Some n ->
    length (values a) = 1%nat ->
    exists s, table_get T (KStr n) = LString s.

(** ** The verification engine *)

(** Modelled from the spec: what [saml_verify_binary] and [saml_verify_doc]
    of [saml.c], which is not among the sources, find.  The signature is
    valid; or it is invalid, because a digest or the signature value does not
    match, or because no trusted key matches (one outcome for all of them);
    or the operation cannot complete (a missing Signature element, a
    malformed structure, a malformed key or transform). *)
Inductive verify_finding :=
| SignatureValid
| SignatureMismatch
| NoMatchingKey
| OperationFailed.

(** Modelled from the spec: the status by which the engine of [saml.c]
    reports a finding.  A valid signature is 0, an invalid one is 1, a
    failure is negative; it is the convention the binding decodes with
    [res < 0] and [1 - res]. *)
Definition finding_status (f : verify_finding) : Z :=
  match f with
  | SignatureValid => 0
  | SignatureMismatch => 1
  | NoMatchingKey => 1
  | OperationFailed => -1
  end.

(** A finding is a cryptographic mismatch, or not. *)
Definition is_mismatch (f : verify_finding) : bool :=
  match f with
  | SignatureMismatch | NoMatchingKey => true
  | _ => false
  end.

(** The backend [B] with its two verification entry points replaced by
    engines that report their findings by [finding_status]. *)
Definition with_verify_engine (B : Backend)
    (verify_bin : world -> ptr -> ptr -> string -> string -> verify_finding)
    (verify : world -> ptr -> ptr -> option string -> verify_finding) : Backend := {|
  xmlReadMemory := @xmlReadMemory B;
  xmlReadFile := @xmlReadFile B;
  xmlDocDumpMemory := @xmlDocDumpMemory B;
  xmlSecCryptoAppKeyLoadMemory := @xmlSecCryptoAppKeyLoadMemory B;
  xmlSecCryptoAppKeyLoad := @xmlSecCryptoAppKeyLoad B;
  xmlSecKeysMngrCreate := @xmlSecKeysMngrCreate B;
  xmlSecCryptoAppDefaultKeysMngrInit := @xmlSecCryptoAppDefaultKeysMngrInit B;
  xmlSecCryptoAppDefaultKeysMngrAdoptKey := @xmlSecCryptoAppDefaultKeysMngrAdoptKey B;
  xmlSecTransformIdsGet := @xmlSecTransformIdsGet B;
  saml_doc_attrs := @saml_doc_attrs B;
  saml_sign_doc := @saml_sign_doc B;
  saml_verify_binary := fun w cert tid data sig => finding_status (verify_bin w cert tid data sig);
  saml_verify_doc := fun w mngr doc id => finding_status (verify w mngr doc id);
  luaH_getn := @luaH_getn B;
  lua_number2str := @lua_number2str B
|}.

(** The three outcomes of a verification, as Lua sees them. *)
Definition Valid : list lua_value := [LBoolean true; LNil].
Definition Invalid : list lua_value := [LBoolean false; LNil].
Definition Fail (msg : string) : list lua_value := [LNil; LString msg].

(** The result of a verification, for a finding. *)
Definition outcome_of (f : verify_finding) : list lua_value :=
  match f with
  | SignatureValid => Valid
  | SignatureMismatch | NoMatchingKey => Invalid
  | OperationFailed => Fail "saml verify failed"
  end.

(** The options [verify_doc] accepts after the manager and the document, and
    the [id_attr] it hands to the engine: no third argument, nil, or a table
    whose [id_attr] is a string. *)
Inductive verify_options : list lua_value -> option string -> Prop :=
| verify_options_none : verify_options [] None
| verify_options_nil rest : verify_options (LNil :: rest) None
| verify_options_table t s rest :
    t !! KStr "id_attr" = Some (LString s) ->
    verify_options (LTable t :: rest) (Some (c_str s)).

(** ** A concrete backend

    Small fixed answers for every callee, to run the binding on concrete
    calls. *)
Module Scenario.

(** The length of the sequence part of a table. *)
Fixpoint border (t : gmap lua_key lua_value) (fuel : nat) (i : Z) : Z :=
  match fuel with
  | O => i
  | S f =>
      match t !! KNum (i + 1) with
      | Some _ => border t f (i + 1)
      | None => i
      end
  end.

Definition rsa_sha1 : string := "http://www.w3.org/2000/09/xmldsig#rsa-sha1".
Definition rsa_sha256 : string := "http://www.w3.org/2001/04/xmldsig-more#rsa-sha256".

Definition backend : Backend := {|
  xmlReadMemory _ s := if decide (s = "<a/>") then 4096 else NULL;
  xmlReadFile _ s := if decide (s = "a.xml") then 4096 else NULL;
  xmlDocDumpMemory _ _ := "<a><Signature/></a>";
  xmlSecCryptoAppKeyLoadMemory _ s _ := if decide (s = "PEM") then 8192 else NULL;
  xmlSecCryptoAppKeyLoad _ s _ := if decide (s = "cert.pem") then 8192 else NULL;
  xmlSecKeysMngrCreate _ := 12288;
  xmlSecCryptoAppDefaultKeysMngrInit _ _ := 0;
  xmlSecCryptoAppDefaultKeysMngrAdoptKey _ _ k := if decide (k = 666) then -1 else 0;
  xmlSecTransformIdsGet _ :=
    [ {| href := rsa_sha1; klass_id := 16384 |};
      {| href := rsa_sha256; klass_id := 16392 |} ];
  saml_doc_attrs _ doc :=
    if decide (doc = 4096) then
      (0, [ {| name := Some "email"; values := [Some "a@b.com"] |};
            {| name := Some "groups"; values := [Some "x"; Some "y"] |};
            {| name := Some "none"; values := [] |} ])
    else (0, [ {| name := Some "a"; values := [None] |} ]);
  saml_sign_doc _ _ _ d _ := if decide (d = NULL) then -1 else 0;
  saml_verify_binary _ _ _ _ s :=
    if decide (s = "good") then 0 else if decide (s = "bad") then 1 else -1;
  saml_verify_doc _ m _ _ := if decide (m = 12288) then 0 else 1;
  luaH_getn t := border t (size t) 0;
  lua_number2str n := pretty n
|}.

(** Engines that report findings: manager 12288 holds the certificate that
    matches, and "signature" is the signature of every data. *)
Definition verify (_ : world) (mngr _ : ptr) (_ : option string) : verify_finding :=
  if decide (mngr = 12288) then SignatureValid else NoMatchingKey.

Definition verify_bin (_ : world) (_ _ : ptr) (_ sig : string) : verify_finding :=
  if decide (sig = "signature") then SignatureValid else SignatureMismatch.

(** [{ key5, key666 }]: the second key is the one the backend refuses. *)
Definition two_keys : gmap lua_key lua_value :=
  list_to_map [(KNum 1, LLightUserdata 5); (KNum 2, LLightUserdata 666)].

(** [{ insert_after = { "urn:ns" } }]: one element where two are asked. *)
Definition short_insert_after : gmap lua_key lua_value :=
  {[ KStr "insert_after" := LTable {[ KNum 1 := LString "urn:ns" ]} ]}.

End Scenario.

(** ** More of [lua_saml.c] over the same callees *)

Section Documents.
Context {B : Backend}.

(** [serialize] *)
Definition serialize : M Z :=
  lua_settop 1;;
  doc ← lua_touserdata 1;
  luaL_argcheck (bool_decide (doc ≠ NULL)) 1 "`xmlDoc*' expected";;
  lua_pop 1;;
  buf ← extern (fun w => xmlDocDumpMemory w doc) (EvXmlDocDumpMemory doc);
  lua_pushlstring buf;;
  extern_void EvXmlFree;;
  mret 1.

(** [load_key_file] *)
Definition load_key_file : M Z :=
  lua_settop 1;;
  key_file ← c_str <$> luaL_checklstring 1;
  lua_pop 1;;
  key ← extern (fun w => xmlSecCryptoAppKeyLoad w key_file xmlSecKeyDataFormatPem)
               (EvKeyLoad key_file xmlSecKeyDataFormatPem);
  (if decide (key = NULL) then lua_pushnil else lua_pushlightuserdata key);;
  mret 1.

End Documents.

(** What [lua_touserdata] reads from a value. *)
Definition to_userdata (v : lua_value) : ptr :=
  match v with
  | LUserdata p => p
  | LLightUserdata p => p
  | _ => NULL
  end.

(** The [i]-th argument of a call, counted from 0; nil when the call has
    fewer ([lua_settop] fills the stack with nil). *)
Definition arg (args : list lua_value) (i : nat) : lua_value :=
  default LNil (args !! i).

(** What [lua_tolstring] reads from a value. *)
Definition to_lstring `{B : Backend} (v : lua_value) : option string :=
  match v with
  | LString s => Some s
  | LNumber n => Some (lua_number2str n)
  | _ => None
  end.

(** What [lua_toboolean] reads from a value. *)
Definition truthy (v : lua_value) : bool :=
  match v with
  | LNil | LBoolean false => false
  | _ => true
  end.

(** The key [create_keys_mngr] reads at index [i] of the list of keys. *)
Definition key_at (t : gmap lua_key lua_value) (i : Z) : ptr :=
  to_userdata (default LNil (t !! KNum i)).

(** The adoptions of the keys at [i], [i + 1], ..., [count] of them, all
    accepted. *)
Definition adoptions (m : ptr) (t : gmap lua_key lua_value) (i : Z) (count : nat) : list event :=
  (fun j : nat => EvKeysMngrAdoptKey m (key_at t (i + Z.of_nat j)) 0) <$> seq 0 count.

(** A handle as the module hands it out: nil, or a light userdata that is
    not [NULL]. *)
Definition nil_or_handle (v : lua_value) : Prop :=
  v = LNil \/ exists p, p ≠ NULL /\ v = LLightUserdata p.

(** A function of the module that takes a string and hands out a handle.
    Over every call of [f]: it returns exactly when its first argument reads
    as a string [s] (a string, or a number, which Lua converts), and then it
    has asked [callee] about [s], logged as the one event [ev], and returns
    what [callee] gave, nil for [NULL] and the pointer as a light userdata
    otherwise; with any other first argument it raises the type error of
    [luaL_checklstring] on argument 1 and has asked nothing. *)
Definition hands_out_handle `{B : Backend} (f : M Z)
    (callee : world -> string -> ptr) (ev : string -> ptr -> event) : Prop :=
  forall (args : list lua_value) (w : world),
    match lua_call f args w with
    | Returned rets evs =>
        exists s,
          to_lstring (arg args 0) = Some s /\
          evs = [ev s (callee w s)] /\
          rets = [if decide (callee w s = NULL) then LNil else LLightUserdata (callee w s)] /\
          Forall nil_or_handle rets
    | Errored e evs =>
        to_lstring (arg args 0) = None /\
        e = ArgError 1 ("string expected, got " +:+ lua_typename (type_of_value (arg args 0))) /\
        evs = []
    | Undefined => False
    end.

(** The default options: no [id_attr], no [insert_after]. *)
Definition no_opts : saml_doc_opts_t :=
  {| id_attr := None; insert_after_ns := None; insert_after_el := None |}.

(** The options tables [sign_get_opts] accepts, with the options it reads
    from each and the number of stack slots it reports: nil; a table with
    [id_attr] absent or a string and no [insert_after]; the same with
    [insert_after] a table of length two holding two strings. *)
Inductive sign_options `{B : Backend} : lua_value -> saml_doc_opts_t -> Z -> Prop :=
| sign_options_nil : sign_options LNil no_opts 4
| sign_options_id t id :
    t !! KStr "id_attr" = LString <$> id ->
    t !! KStr "insert_after" = None ->
    sign_options (LTable t)
      {| id_attr := c_str <$> id; insert_after_ns := None; insert_after_el := None |} 6
| sign_options_insert_after t id p ns el :
    t !! KStr "id_attr" = LString <$> id ->
    t !! KStr "insert_after" = Some (LTable p) ->
    luaH_getn p = 2 ->
    p !! KNum 1 = Some (LString ns) ->
    p !! KNum 2 = Some (LString el) ->
    sign_options (LTable t)
      {| id_attr := c_str <$> id;
         insert_after_ns := Some (c_str ns); insert_after_el := Some (c_str el) |} 8.

(** The results and the events of [sign_xml] once its arguments are read:
    the parse; when it gives a document, the signing of that document; when
    that succeeds, the dump and the release of its buffer; and the release of
    the document. *)
Definition sign_xml_outcome `{B : Backend} (w : world) (key tid : ptr) (data : string)
    (opts : saml_doc_opts_t) : list lua_value * list event :=
  let doc := xmlReadMemory w data in
  let read := EvXmlReadMemory data doc in
  if decide (doc = NULL) then (Fail "unable to parse xml string", [read])
  else
    let res := saml_sign_doc (w ++ [read]) key tid doc opts in
    let sign := EvSamlSignDoc key tid doc opts res in
    if decide (res = 0) then
      let buf := xmlDocDumpMemory (w ++ [read; sign]) doc in
      ([LString buf; LNil], [read; sign; EvXmlDocDumpMemory doc buf; EvXmlFree; EvXmlFreeDoc doc])
    else (Fail "saml sign failed", [read; sign; EvXmlFreeDoc doc]).

(** ** The functions over the other callees

    [init], [validate_doc], [issuer], [session_index], [key_load_cert],
    [key_load_cert_file] and [sign_binary] call into [saml.c] and xmlsec
    through entry points the functions above do not use.  Their calls are
    logged beside the others. *)
Inductive xevent :=
| EvSamlInit (debug : bool) (rock_dir : string) (res : Z)
| EvSamlShutdown
| EvSamlDocValidate (doc : ptr) (res : Z)
| EvSamlDocIssuer (doc : ptr) (issuer : option string)
| EvSamlDocSessionIndex (doc : ptr) (session_index : option string)
| EvKeyCertLoadMemory (key : ptr) (cert : string) (res : Z)
| EvKeyCertLoad (key : ptr) (cert_file : string) (res : Z)
| EvSamlSignBinary (key transform_id : ptr) (data : string) (ctx : ptr)
| EvTransformCtxDestroy (ctx : ptr).

Definition xworld := list (event + xevent).

(** The entry points, with their C prototypes; [ctx_result] is the content
    of the buffer [ctx->result]. *)
Class Engine := {
  saml_init : xworld -> bool -> string -> Z;
  saml_doc_validate : xworld -> ptr -> Z;
  saml_doc_issuer : xworld -> ptr -> option string;
  saml_doc_session_index : xworld -> ptr -> option string;
  xmlSecCryptoAppKeyCertLoadMemory : xworld -> ptr -> string -> Z;
  xmlSecCryptoAppKeyCertLoad : xworld -> ptr -> string -> Z;
  saml_sign_binary : xworld -> ptr -> ptr -> string -> ptr;
  ctx_result : xworld -> ptr -> string
}.

Record lua_StateX := {
  xstack : list lua_value;
  xtrace : xworld
}.

Inductive xoutcome (A : Type) :=
| XOk (a : A) (L : lua_StateX)
| XRaise (e : lua_error) (L : lua_StateX)
| XStuck.
Arguments XOk {A} a L.
Arguments XRaise {A} e L.
Arguments XStuck {A}.

Definition XM (A : Type) : Type := lua_StateX -> xoutcome A.

#[global] Instance XM_ret : MRet XM := fun A a L => XOk a L.
#[global] Instance XM_bind : MBind XM := fun A B f m L =>
  match m L with
  | XOk a L' => f a L'
  | XRaise e L' => XRaise e L'
  | XStuck => XStuck
  end.

(** An operation of the first part, run on the stack; what it logs is logged
    here as it is. *)
Definition api {A} (m : M A) : XM A :=
  fun L =>
    match m {| stack := xstack L; trace := [] |} with
    | Ok a L' => XOk a {| xstack := stack L'; xtrace := xtrace L ++ (inl <$> trace L') |}
    | Raise e L' => XRaise e {| xstack := stack L'; xtrace := xtrace L ++ (inl <$> trace L') |}
    | Stuck => XStuck
    end.

Definition xextern {A} (oracle : xworld -> A) (ev : A -> xevent) : XM A :=
  fun L => let r := oracle (xtrace L) in
           XOk r {| xstack := xstack L; xtrace := xtrace L ++ [inr (ev r)] |}.

Definition xextern_void (ev : xevent) : XM unit :=
  fun L => XOk tt {| xstack := xstack L; xtrace := xtrace L ++ [inr ev] |}.

(** A read of native memory: no call is made. *)
Definition peek {A} (oracle : xworld -> A) : XM A :=
  fun L => XOk (oracle (xtrace L)) L.

Section EngineBinding.
Context {B : Backend} {E : Engine}.

(** [lua_toboolean]: false for nil, [false] and no value. *)
Definition lua_toboolean (idx : Z) : M bool :=
  st ← get_stack;
  mret (match index2adr st idx with
        | None | Some LNil | Some (LBoolean false) => false
        | Some _ => true
        end).

(** [init] *)
Definition init : XM Z :=
  api (lua_settop 1);;
  api (luaL_checktype 1 LUA_TTABLE);;
  api (lua_getfield 1 "debug");;
  api (lua_getfield 1 "rock_dir");;
  debug ← api (lua_toboolean 2);
  rock_dir ← api (c_str <$> luaL_checklstring 3);
  api (lua_pop 2);;
  res ← xextern (fun w => saml_init w debug rock_dir) (EvSamlInit debug rock_dir);
  (if decide (res < 0) then api (lua_pushstring "saml initialization failed")
   else api lua_pushnil);;
  mret 1.

(** [shutdown] *)
Definition shutdown : XM Z :=
  xextern_void EvSamlShutdown;;
  mret 0.

(** [validate_doc] *)
Definition validate_doc : XM Z :=
  api (lua_settop 1);;
  doc ← api (lua_touserdata 1);
  api (luaL_argcheck (bool_decide (doc ≠ NULL)) 1 "`xmlDoc*' expected");;
  api (lua_pop 1);;
  res ← xextern (fun w => saml_doc_validate w doc) (EvSamlDocValidate doc);
  api (lua_pushboolean res);;
  mret 1.

(** [issuer] *)
Definition issuer : XM Z :=
  api (lua_settop 1);;
  doc ← api (lua_touserdata 1);
  api (luaL_argcheck (bool_decide (doc ≠ NULL)) 1 "`xmlDoc*' expected");;
  api (lua_pop 1);;
  issuer ← xextern (fun w => saml_doc_issuer w doc) (EvSamlDocIssuer doc);
  match issuer with
  | None => api lua_pushnil
  | Some s => api (lua_pushstring s);; api (extern_void EvXmlFree)
  end;;
  mret 1.

(** [session_index] *)
Definition session_index : XM Z :=
  api (lua_settop 1);;
  doc ← api (lua_touserdata 1);
  api (luaL_argcheck (bool_decide (doc ≠ NULL)) 1 "`xmlDoc*' expected");;
  api (lua_pop 1);;
  session_index ← xextern (fun w => saml_doc_session_index w doc) (EvSamlDocSessionIndex doc);
  match session_index with
  | None => api lua_pushnil
  | Some s => api (lua_pushstring s);; api (extern_void EvXmlFree)
  end;;
  mret 1.

(** [key_load_cert] *)
Definition key_load_cert : XM Z :=
  api (lua_settop 2);;
  key ← api (lua_touserdata 1);
  api (luaL_argcheck (bool_decide (key ≠ NULL)) 1 "`xmlSecKey*' expected");;
  cert ← api (luaL_checklstring 2);
  api (lua_pop 2);;
  res ← xextern (fun w => xmlSecCryptoAppKeyCertLoadMemory w key cert)
                (EvKeyCertLoadMemory key cert);
  (if decide (res < 0) then api (lua_pushboolean 0) else api (lua_pushboolean 1));;
  mret 1.

(** [key_load_cert_file] *)
Definition key_load_cert_file : XM Z :=
  api (lua_settop 2);;
  key ← api (lua_touserdata 1);
  api (luaL_argcheck (bool_decide (key ≠ NULL)) 1 "`xmlSecKey*' expected");;
  cert_file ← api (c_str <$> luaL_checklstring 2);
  api (lua_pop 2);;
  res ← xextern (fun w => xmlSecCryptoAppKeyCertLoad w key cert_file)
                (EvKeyCertLoad key cert_file);
  (if decide (res < 0) then api (lua_pushboolean 0) else api (lua_pushboolean 1));;
  mret 1.


End EngineBinding.

(** A call of one of these functions from Lua. *)
Inductive xcall_result :=
| XReturned (rets : list lua_value) (events : xworld)
| XErrored (e : lua_error) (events : xworld)
| XUndefined.

Definition xcall (f : XM Z) (args : list lua_value) (w : xworld) : xcall_result :=
  match f {| xstack := args; xtrace := w |} with
  | XOk n L =>
      if decide (0 <= n <= Z.of_nat (length (xstack L))) then
        XReturned (drop (length (xstack L) - Z.to_nat n)%nat (xstack L))
                  (drop (length w) (xtrace L))
      else XUndefined
  | XRaise e L => XErrored e (drop (length w) (xtrace L))
  | XStuck => XUndefined
  end.

(** Fixed answers for the other callees. *)
Module ScenarioX.

(** [{ id_attr = "ID", insert_after = { "urn:ns", "Issuer" } }] *)
Definition insert_after : gmap lua_key lua_value :=
  list_to_map [(KNum 1, LString "urn:ns"); (KNum 2, LString "Issuer")].

Definition full_options : gmap lua_key lua_value :=
  list_to_map [(KStr "id_attr", LString "ID"); (KStr "insert_after", LTable insert_after)].

Definition full_opts : saml_doc_opts_t :=
  {| id_attr := Some "ID"; insert_after_ns := Some "urn:ns"; insert_after_el := Some "Issuer" |}.

(** [{ key5, NULL }]: the second entry is what [load_cert] returns for
    bytes that are not a certificate. *)
Definition keys_with_null : gmap lua_key lua_value :=
  list_to_map [(KNum 1, LLightUserdata 5); (KNum 2, LLightUserdata NULL)].

(** [{ key5, key6 }] *)
Definition good_keys : gmap lua_key lua_value :=
  list_to_map [(KNum 1, LLightUserdata 5); (KNum 2, LLightUserdata 6)].

Definition engine : Engine := {|
  saml_init _ _ dir := if decide (dir = "/usr/share/saml") then 0 else -1;
  saml_doc_validate _ doc := if decide (doc = 4096) then 1 else 0;
  saml_doc_issuer _ doc := if decide (doc = 4096) then Some "https://idp.example" else None;
  saml_doc_session_index _ doc := if decide (doc = 4096) then Some "_session1" else None;
  xmlSecCryptoAppKeyCertLoadMemory _ _ cert := if decide (cert = "PEM") then 0 else -1;
  xmlSecCryptoAppKeyCertLoad _ _ file := if decide (file = "cert.pem") then 0 else -1;
  saml_sign_binary _ key _ _ := if decide (key = 8192) then 20480 else NULL;
  ctx_result _ _ := "signature"
|}.

End ScenarioX.

(** ** [free_doc], on the stack as the interpreter keeps it

    [free_doc] pops twice from a frame of one slot.  The model of
    [lua_settop] above stops at a request to lower the top below the base of
    the frame, which is what the interpreter's [api_check] asserts; an
    interpreter built without API checks (the default build) has no such
    test, and [lua_settop] only moves [L->top].  This module follows
    [free_doc] on the stack as [lapi.c] keeps it, without the checks: one
    array of slots, with [L->base] and [L->top] as offsets into it. *)
Module Unchecked.

(** The part of [lua_State] a C function sees: the stack array, [L->base]
    (the slot of the first argument; the called function is in the slot
    right below it), [L->top] (the first free slot), and the calls of
    callees so far. *)
Record frame := {
  slots : list lua_value;
  base : Z;
  top : Z;
  calls : world
}.

(** A C function runs to a value, raises a Lua error, or touches memory
    outside the stack array. *)
Inductive result (A : Type) :=
| Done (a : A) (F : frame)
| Thrown (e : lua_error) (F : frame)
| Fault.
Arguments Done {A} a F.
Arguments Thrown {A} e F.
Arguments Fault {A}.

Definition U (A : Type) : Type := frame -> result A.

#[global] Instance U_ret : MRet U := fun A a F => Done a F.
#[global] Instance U_bind : MBind U := fun A B f m F =>
  match m F with
  | Done a F' => f a F'
  | Thrown e F' => Thrown e F'
  | Fault => Fault
  end.

(** The slot at offset [i] of the array. *)
Definition cell (F : frame) (i : Z) : option lua_value :=
  if decide (0 <= i) then slots F !! Z.to_nat i else None.

(** [setnilvalue(L->top++)], [n] times. *)
Fixpoint set_nils (n : nat) (F : frame) : option frame :=
  match n with
  | O => Some F
  | S n' =>
      if decide (0 <= top F < Z.of_nat (length (slots F))) then
        set_nils n' {| slots := <[Z.to_nat (top F) := LNil]> (slots F);
                       base := base F; top := top F + 1; calls := calls F |}
      else None
  end.

(** [lua_settop]: for [idx >= 0],
    [while (L->top < L->base + idx) setnilvalue(L->top++); L->top = L->base + idx;]
    and for a negative one [L->top += idx + 1;], whatever [L->base] is. *)
Definition lua_settop (idx : Z) : U unit :=
  fun F =>
    if decide (0 <= idx) then
      match set_nils (Z.to_nat (base F + idx - top F)) F with
      | Some F' =>
          Done tt {| slots := slots F'; base := base F'; top := base F' + idx;
                     calls := calls F' |}
      | None => Fault
      end
    else
      Done tt {| slots := slots F; base := base F; top := top F + idx + 1;
                 calls := calls F |}.

(** [#define lua_pop(L,n) lua_settop(L, -(n)-1)] *)
Definition lua_pop (n : Z) : U unit := lua_settop (- n - 1).

(** [index2adr], without the pseudo-indices (the binding uses none): a
    positive index counts from [L->base] and names no value at or above
    [L->top]; a negative one counts back from [L->top]. *)
Definition index2adr (idx : Z) : U (option lua_value) :=
  fun F =>
    if decide (0 < idx) then
      if decide (top F <= base F + (idx - 1)) then Done None F
      else match cell F (base F + (idx - 1)) with
           | Some v => Done (Some v) F
           | None => Fault
           end
    else
      match cell F (top F + idx) with
      | Some v => Done (Some v) F
      | None => Fault
      end.

(** [lua_touserdata] *)
Definition lua_touserdata (idx : Z) : U ptr :=
  o ← index2adr idx;
  mret (match o with
        | Some v => to_userdata v
        | None => NULL
        end).

(** [luaL_argcheck] *)
Definition luaL_argcheck (cond : bool) (narg : Z) (extramsg : string) : U unit :=
  if cond then mret tt else fun F => Thrown (ArgError narg extramsg) F.

(** A callee without a result. *)
Definition extern_void (ev : event) : U unit :=
  fun F => Done tt {| slots := slots F; base := base F; top := top F;
                      calls := calls F ++ [ev] |}.

(** [free_doc] *)
Definition free_doc : U Z :=
  lua_settop 1;;
  doc ← lua_touserdata 1;
  luaL_argcheck (bool_decide (doc ≠ NULL)) 1 "`xmlDoc*' expected";;
  lua_pop 1;;
  extern_void (EvXmlFreeDoc doc);;
  lua_pop 1;;
  mret 0.

(** The free slots the interpreter guarantees a C function above its
    arguments. *)
Definition LUA_MINSTACK : Z := 20.

(** [luaD_precall]: the frame of a C function [fn] called with [args];
    [below] is the array under the function (the frames of its callers),
    [free] are the slots above the arguments. *)
Definition enter (below : list lua_value) (fn : lua_value) (args free : list lua_value)
    (w : world) : frame :=
  {| slots := below ++ fn :: args ++ free;
     base := Z.of_nat (length below) + 1;
     top := Z.of_nat (length below) + 1 + Z.of_nat (length args);
     calls := w |}.

(** The frame after [lua_settop(L, 1)]: the one value [v] above the
    function, and whatever the array holds above it. *)
Definition one_slot (below : list lua_value) (fn v : lua_value) (above : list lua_value)
    (w : world) : frame :=
  {| slots := below ++ fn :: v :: above;
     base := Z.of_nat (length below) + 1;
     top := Z.of_nat (length below) + 1 + 1;
     calls := w |}.

(** [luaD_poscall]: what a C function that returns [n] hands to its caller,
    the [n] slots below [L->top]. *)
Definition results (F : frame) (n : Z) : list lua_value :=
  take (Z.to_nat n) (drop (Z.to_nat (top F - n)) (slots F)).

(** The values of the frame, from [L->base] up to [L->top]. *)
Definition frame_stack (F : frame) : list lua_value :=
  take (Z.to_nat (top F - base F)) (drop (Z.to_nat (base F)) (slots F)).

End Unchecked.

(** * Properties *)

(** ** Running the binding symbolically *)

(** Unfolds the API down to the stack and the trace; on a stack of known
    shape the code then computes. *)
Ltac unfold_api :=
  cbv beta iota zeta delta
    [mbind M_bind mret M_ret fmap M_fmap raise stuck get_stack put_stack extern extern_void
     lua_settop lua_pop lua_type lua_isnil lua_isnone lua_isnoneornil lua_touserdata
     lua_tolstring push lua_pushnil lua_pushboolean lua_pushinteger lua_pushlightuserdata
     lua_pushlstring lua_pushstring lua_newtable lua_getfield lua_rawgeti lua_settable
     lua_objlen luaL_argerror luaL_typerror luaL_argcheck luaL_checktype luaL_checklstring
     push_value index2adr slot stack trace option_bind compose].

Ltac exec := unfold_api; simpl.

(** The events of a call are what it appended to the trace. *)
Ltac events := rewrite <- ?app_assoc; rewrite ?drop_app_length, ?drop_all.

Ltac call := unfold lua_call; exec; events; simpl.

(** One turn of a loop. *)
Lemma for_loop_step (count : nat) (i : Z) (body : Z -> M (option Z)) (L : lua_State) :
  for_loop (S count) i body L =
    match body i L with
    | Ok (Some n) L' => Ok (Some n) L'
    | Ok None L' => for_loop count (i + 1) body L'
    | Raise e L' => Raise e L'
    | Stuck => Stuck
    end.
Proof.
  simpl. unfold mbind, M_bind. destruct (body i L) as [[n|] L'|e L'|]; reflexivity.
Qed.

Section Parsing.
Context {B : Backend}.

Lemma parse_run (s : string) (rest : list lua_value) (w : world) :
  lua_call parse (LString s :: rest) w =
    Returned [if decide (xmlReadMemory w s = NULL) then LNil
              else LLightUserdata (xmlReadMemory w s)]
             [EvXmlReadMemory s (xmlReadMemory w s)].
Proof. unfold parse. call. case_decide; call; reflexivity. Qed.

Lemma parse_file_run (s : string) (rest : list lua_value) (w : world) :
  lua_call parse_file (LString s :: rest) w =
    Returned [if decide (xmlReadFile w (c_str s) = NULL) then LNil
              else LLightUserdata (xmlReadFile w (c_str s))]
             [EvXmlReadFile (c_str s) (xmlReadFile w (c_str s))].
Proof. unfold parse_file. call. case_decide; call; reflexivity. Qed.

End Parsing.

(** C9. For every input string, [parse] returns nil when libxml2 rejects the
    text ([xmlReadMemory] gives [NULL]) and a document handle otherwise, and
    [parse_file] does the same with [xmlReadFile] on the named file; neither
    raises an error nor leaves the model. *)
Theorem parse_none_on_malformed `{B : Backend} (s : string) (rest : list lua_value) (w : world) :
  lua_call parse (LString s :: rest) w =
    Returned [if decide (xmlReadMemory w s = NULL) then LNil
              else LLightUserdata (xmlReadMemory w s)]
             [EvXmlReadMemory s (xmlReadMemory w s)]
  /\ lua_call parse_file (LString s :: rest) w =
    Returned [if decide (xmlReadFile w (c_str s) = NULL) then LNil
              else LLightUserdata (xmlReadFile w (c_str s))]
             [EvXmlReadFile (c_str s) (xmlReadFile w (c_str s))].
Proof. split; [apply parse_run | apply parse_file_run]. Qed.

Section Keys.
Context {B : Backend}.

(** [load_key] and [load_cert_file] check the key they loaded. *)
Lemma load_key_run (s : string) (rest : list lua_value) (w : world) :
  let key := xmlSecCryptoAppKeyLoadMemory w s xmlSecKeyDataFormatPem in
  lua_call load_key (LString s :: rest) w =
    Returned [if decide (key = NULL) then LNil else LLightUserdata key]
             [EvKeyLoadMemory s xmlSecKeyDataFormatPem key].
Proof. intros key. unfold load_key. call. fold key. case_decide; call; reflexivity. Qed.

Lemma load_cert_file_run (s : string) (rest : list lua_value) (w : world) :
  let cert := xmlSecCryptoAppKeyLoad w (c_str s) xmlSecKeyDataFormatCertPem in
  lua_call load_cert_file (LString s :: rest) w =
    Returned [if decide (cert = NULL) then LNil else LLightUserdata cert]
             [EvKeyLoad (c_str s) xmlSecKeyDataFormatCertPem cert].
Proof. intros cert. unfold load_cert_file. call. fold cert. case_decide; call; reflexivity. Qed.

End Keys.

(** C7. [load_cert] pushes the pointer xmlsec returned as a light userdata
    without looking at it: when the bytes are not a certificate the pointer
    is [NULL] and the result is a light userdata holding [NULL], not nil. *)
Theorem load_cert_pushes_unchecked `{B : Backend} (s : string) (rest : list lua_value) (w : world) :
  let cert := xmlSecCryptoAppKeyLoadMemory w s xmlSecKeyDataFormatCertPem in
  lua_call load_cert (LString s :: rest) w =
    Returned [LLightUserdata cert] [EvKeyLoadMemory s xmlSecKeyDataFormatCertPem cert]
  /\ (cert = NULL -> lua_call load_cert (LString s :: rest) w ≠
                       Returned [LNil] [EvKeyLoadMemory s xmlSecKeyDataFormatCertPem cert]).
Proof.
  intros cert.
  assert (lua_call load_cert (LString s :: rest) w =
            Returned [LLightUserdata cert] [EvKeyLoadMemory s xmlSecKeyDataFormatCertPem cert]) as E.
  { unfold load_cert. call. reflexivity. }
  split; [exact E|]. intros _. rewrite E. discriminate.
Qed.

Lemma load_cert_pushes_unchecked_example :
  @xmlSecCryptoAppKeyLoadMemory Scenario.backend [] "not a certificate"
    xmlSecKeyDataFormatCertPem = NULL
  /\ lua_call (@load_cert Scenario.backend) [LString "not a certificate"] [] =
       Returned [LLightUserdata NULL]
                [EvKeyLoadMemory "not a certificate" xmlSecKeyDataFormatCertPem NULL].
Proof.
  split; [reflexivity|].
  exact (proj1 (@load_cert_pushes_unchecked Scenario.backend "not a certificate" [] [])).
Defined.

(** C10. [sign_doc] checks [key] a second time where it means to check
    [doc]: with a key, a transform id and nil for the document, no argument
    error is raised and the engine is called with a [NULL] document. *)
Theorem sign_doc_nil_document_reaches_engine `{B : Backend} (key tid : ptr) (w : world) :
  key ≠ NULL -> tid ≠ NULL ->
  let opts := {| id_attr := None; insert_after_ns := None; insert_after_el := None |} in
  let res := saml_sign_doc w key tid NULL opts in
  lua_call sign_doc [LLightUserdata key; LLightUserdata tid; LNil] w =
    Returned [if decide (res = 0) then LNil else LString "saml sign failed"]
             [EvSamlSignDoc key tid NULL opts res].
Proof.
  intros Hk Ht opts res. unfold sign_doc, sign_get_opts. call.
  rewrite !bool_decide_eq_true_2 by done. call.
  fold opts. fold res. case_decide; call; reflexivity.
Qed.

Lemma sign_doc_nil_document_example :
  lua_call (@sign_doc Scenario.backend) [LLightUserdata 8192; LLightUserdata 16392; LNil] [] =
    Returned [LString "saml sign failed"]
             [EvSamlSignDoc 8192 16392 NULL
                {| id_attr := None; insert_after_ns := None; insert_after_el := None |} (-1)].
Proof.
  exact (@sign_doc_nil_document_reaches_engine Scenario.backend 8192 16392 []
           ltac:(discriminate) ltac:(discriminate)).
Defined.

Ltac split_case := first [case_bool_decide | case_decide].
Ltac crunch := repeat (call; try done; split_case); call; try done.

Section Verification.
Context {B : Backend}.

(** [verify_doc], for every call: either an argument check raises before
    the engine is asked, or the engine is asked once and its status is
    turned into the two results. *)
Lemma verify_doc_run (args : list lua_value) (w : world) :
  match lua_call verify_doc args w with
  | Returned rets evs =>
      exists mngr doc id,
        evs = [EvSamlVerifyDoc mngr doc id (saml_verify_doc w mngr doc id)] /\
        mngr ≠ NULL /\ doc ≠ NULL /\
        rets = if decide (saml_verify_doc w mngr doc id < 0)
               then Fail "saml verify failed"
               else [LBoolean (bool_decide (1 - saml_verify_doc w mngr doc id ≠ 0)); LNil]
  | Errored e evs => evs = []
  | Undefined => False
  end.
Proof.
  unfold verify_doc, Fail.
  destruct args as [|a1 [|a2 [|a3 rest]]]; call; try done.
  all: destruct a1; crunch.
  all: destruct a2; crunch.
  all: try (destruct a3; crunch).
  all: try (destruct (t !! KStr "id_attr") as [[]|]; crunch).
  all: do 3 eexists; split; [reflexivity|]; split_and!; try done.
  all: case_decide; try done; case_bool_decide; done.
Qed.

Lemma verify_binary_run (args : list lua_value) (w : world) :
  match lua_call verify_binary args w with
  | Returned rets evs =>
      exists cert tid data sig,
        evs = [EvSamlVerifyBinary cert tid data sig (saml_verify_binary w cert tid data sig)] /\
        cert ≠ NULL /\ tid ≠ NULL /\
        rets = if decide (saml_verify_binary w cert tid data sig < 0)
               then Fail "saml verify failed"
               else [LBoolean (bool_decide (1 - saml_verify_binary w cert tid data sig ≠ 0)); LNil]
  | Errored e evs => evs = []
  | Undefined => False
  end.
Proof.
  unfold verify_binary, Fail.
  destruct args as [|a1 [|a2 [|a3 [|a4 rest]]]]; call; try done.
  all: destruct a1; crunch.
  all: destruct a2; crunch.
  all: try (destruct a3; crunch).
  all: try (destruct a4; crunch).
  all: do 4 eexists; split; [reflexivity|]; split_and!; try done.
  all: case_decide; try done; case_bool_decide; done.
Qed.

(** How the binding decodes a status. *)
Lemma decode_status (res : Z) :
  (if decide (res < 0) then Fail "saml verify failed"
   else [LBoolean (bool_decide (1 - res ≠ 0)); LNil]) =
  if decide (res < 0) then Fail "saml verify failed"
  else if decide (res = 1) then Invalid else Valid.
Proof.
  destruct (decide (res < 0)); [reflexivity|].
  destruct (decide (res = 1)) as [->|]; unfold Invalid, Valid.
  - rewrite bool_decide_eq_false_2 by lia. reflexivity.
  - rewrite bool_decide_eq_true_2 by lia. reflexivity.
Qed.

End Verification.

(** With an engine that reports as the specification says, [verify_doc]
    called with a manager, a document and options it accepts (no options,
    nil, or a table whose [id_attr] is a string) asks the engine once and
    returns Valid for a valid signature, Invalid (false and no error) for a
    mismatch and for no matching key alike, and Fail (nil and the error
    string) for a failure of the operation only.  Over all calls: one that
    returns has asked the engine once and returns by the same table; one
    stopped by an argument check has not asked the engine. *)
Lemma verify_doc_accepted_options (B : Backend)
    (verify_bin : world -> ptr -> ptr -> string -> string -> verify_finding)
    (verify : world -> ptr -> ptr -> option string -> verify_finding) (w : world) :
  (forall mngr doc options id,
      mngr ≠ NULL -> doc ≠ NULL -> verify_options options id ->
      lua_call (@verify_doc (with_verify_engine B verify_bin verify))
        (LLightUserdata mngr :: LLightUserdata doc :: options) w =
        Returned (outcome_of (verify w mngr doc id))
                 [EvSamlVerifyDoc mngr doc id (finding_status (verify w mngr doc id))])
  /\ (forall f, (outcome_of f = Invalid <-> is_mismatch f = true) /\
                (outcome_of f = Fail "saml verify failed" <-> f = OperationFailed))
  /\ (forall args,
        match lua_call (@verify_doc (with_verify_engine B verify_bin verify)) args w with
        | Returned rets evs =>
            exists mngr doc id,
              evs = [EvSamlVerifyDoc mngr doc id (finding_status (verify w mngr doc id))] /\
              rets = outcome_of (verify w mngr doc id)
        | Errored e evs => evs = []
        | Undefined => False
        end).
Proof.
  split; [|split].
  - intros mngr doc options id Hm Hd Hopts. unfold verify_doc.
    destruct Hopts as [|rest|t s rest Hid]; call.
    all: rewrite !bool_decide_eq_true_2 by done; call.
    all: try (rewrite Hid; call).
    all: destruct (verify _ mngr doc _); call; reflexivity.
  - intros []; simpl; repeat split; intros; try discriminate; reflexivity.
  - intros args.
    pose proof (@verify_doc_run (with_verify_engine B verify_bin verify) args w) as H.
    destruct (lua_call verify_doc args w) as [rets evs|e evs|]; [|exact H|exact H].
    destruct H as (mngr & doc & id & Hev & _ & _ & Hrets).
    exists mngr, doc, id. split; [exact Hev|].
    rewrite Hrets. simpl. destruct (verify w mngr doc id); reflexivity.
Qed.

(** C1. Take a manager and a document for which the engine finds a
    mismatch (a digest or signature value that does not match, or no
    matching trusted key), whatever the ID attribute.  Called without
    options, [verify_doc] asks the engine and returns Invalid.  Called with
    an options table that does not set [id_attr] (the empty table, which the
    function's documentation gives as the default, among them), the same
    verification raises the argument error of [luaL_checklstring(L, 4)],
    the slot the absent field was read into, and the engine is not asked:
    the call returns neither Invalid nor Fail. *)
Theorem verify_doc_mismatch_raises_without_id_attr (B : Backend)
    (verify_bin : world -> ptr -> ptr -> string -> string -> verify_finding)
    (verify : world -> ptr -> ptr -> option string -> verify_finding)
    (mngr doc : ptr) (t : gmap lua_key lua_value) (rest : list lua_value) (w : world) :
  mngr ≠ NULL -> doc ≠ NULL ->
  t !! KStr "id_attr" = None ->
  (forall id, is_mismatch (verify w mngr doc id) = true) ->
  lua_call (@verify_doc (with_verify_engine B verify_bin verify))
    [LLightUserdata mngr; LLightUserdata doc] w =
    Returned Invalid [EvSamlVerifyDoc mngr doc None 1]
  /\ lua_call (@verify_doc (with_verify_engine B verify_bin verify))
       (LLightUserdata mngr :: LLightUserdata doc :: LTable t :: rest) w =
       Errored (ArgError 4 "string expected, got nil") []
  /\ (forall rets evs,
        lua_call (@verify_doc (with_verify_engine B verify_bin verify))
          (LLightUserdata mngr :: LLightUserdata doc :: LTable t :: rest) w ≠
          Returned rets evs).
Proof.
  intros Hm Hd Ht Hmis.
  assert (lua_call (@verify_doc (with_verify_engine B verify_bin verify))
            (LLightUserdata mngr :: LLightUserdata doc :: LTable t :: rest) w =
          Errored (ArgError 4 "string expected, got nil") []) as Hraise.
  { unfold verify_doc. call.
    rewrite !bool_decide_eq_true_2 by done. call.
    rewrite Ht. call. reflexivity. }
  split; [|split; [exact Hraise|intros rets evs; rewrite Hraise; discriminate]].
  rewrite (proj1 (verify_doc_accepted_options B verify_bin verify w)
             mngr doc [] None Hm Hd verify_options_none).
  specialize (Hmis None).
  destruct (verify w mngr doc None); simpl in Hmis; try discriminate; reflexivity.
Qed.

Lemma verify_doc_mismatch_raises_example :
  lua_call (@verify_doc (with_verify_engine Scenario.backend Scenario.verify_bin Scenario.verify))
    [LLightUserdata 20480; LLightUserdata 4096] [] =
    Returned Invalid [EvSamlVerifyDoc 20480 4096 None 1]
  /\ lua_call (@verify_doc (with_verify_engine Scenario.backend Scenario.verify_bin Scenario.verify))
       [LLightUserdata 20480; LLightUserdata 4096; LTable ∅] [] =
       Errored (ArgError 4 "string expected, got nil") [].
Proof.
  pose proof (verify_doc_mismatch_raises_without_id_attr Scenario.backend Scenario.verify_bin
                Scenario.verify 20480 4096 ∅ [] []
                ltac:(discriminate) ltac:(discriminate) ltac:(reflexivity)
                ltac:(intros id; reflexivity)) as H.
  exact (conj (proj1 H) (proj1 (proj2 H))).
Defined.

(** C2. With an engine that reports as the specification says, [verify_binary]
    called with a key, a transform id, the data and the signature returns
    exactly one of three results, all different: Valid for a valid signature,
    Invalid (false and no error) for a mismatch, Fail (nil and the error
    string) when the operation could not complete; so a mismatch is never an
    error.  Over all calls: one that returns has asked the engine once and
    returns by the same table; one stopped by an argument check has not
    asked the engine. *)
Theorem verify_binary_three_outcomes (B : Backend)
    (verify_bin : world -> ptr -> ptr -> string -> string -> verify_finding)
    (verify : world -> ptr -> ptr -> option string -> verify_finding) (w : world) :
  (forall cert tid data sig rest,
      cert ≠ NULL -> tid ≠ NULL ->
      lua_call (@verify_binary (with_verify_engine B verify_bin verify))
        (LLightUserdata cert :: LLightUserdata tid :: LString data :: LString sig :: rest) w =
        Returned (outcome_of (verify_bin w cert tid data sig))
                 [EvSamlVerifyBinary cert tid data sig
                    (finding_status (verify_bin w cert tid data sig))])
  /\ (Valid ≠ Invalid /\ Valid ≠ Fail "saml verify failed" /\
      Invalid ≠ Fail "saml verify failed")
  /\ (forall f, (outcome_of f = Valid <-> f = SignatureValid) /\
                (outcome_of f = Invalid <-> is_mismatch f = true) /\
                (outcome_of f = Fail "saml verify failed" <-> f = OperationFailed))
  /\ (forall args,
        match lua_call (@verify_binary (with_verify_engine B verify_bin verify)) args w with
        | Returned rets evs =>
            exists cert tid data sig,
              evs = [EvSamlVerifyBinary cert tid data sig
                       (finding_status (verify_bin w cert tid data sig))] /\
              rets = outcome_of (verify_bin w cert tid data sig)
        | Errored e evs => evs = []
        | Undefined => False
        end).
Proof.
  split; [|split; [|split]].
  - intros cert tid data sig rest Hc Ht. unfold verify_binary. call.
    rewrite !bool_decide_eq_true_2 by done. call.
    destruct (verify_bin w cert tid data sig); call; reflexivity.
  - repeat split; discriminate.
  - intros []; simpl; repeat split; intros; try discriminate; reflexivity.
  - intros args.
    pose proof (@verify_binary_run (with_verify_engine B verify_bin verify) args w) as H.
    destruct (lua_call verify_binary args w) as [rets evs|e evs|]; [|exact H|exact H].
    destruct H as (cert & tid & data & sig & Hev & _ & _ & Hrets).
    exists cert, tid, data, sig. split; [exact Hev|].
    rewrite Hrets. simpl. destruct (verify_bin w cert tid data sig); reflexivity.
Qed.

Lemma verify_binary_tampered_example :
  lua_call (@verify_binary (with_verify_engine Scenario.backend Scenario.verify_bin Scenario.verify))
    [LLightUserdata 8192; LLightUserdata 16392; LString "data"; LString "tampered"] [] =
    Returned Invalid [EvSamlVerifyBinary 8192 16392 "data" "tampered" 1].
Proof.
  exact (proj1 (verify_binary_three_outcomes Scenario.backend Scenario.verify_bin
                  Scenario.verify [])
           8192 16392 "data" "tampered" [] ltac:(discriminate) ltac:(discriminate)).
Defined.

(** C8. [verify_doc] reads [id_attr] with [luaL_checklstring] whether it is
    there or not: an options table without the field raises an argument
    error, and the engine is not asked. *)
Theorem verify_doc_requires_id_attr `{B : Backend} (mngr doc : ptr)
    (t : gmap lua_key lua_value) (rest : list lua_value) (w : world) :
  mngr ≠ NULL -> doc ≠ NULL -> t !! KStr "id_attr" = None ->
  lua_call verify_doc (LLightUserdata mngr :: LLightUserdata doc :: LTable t :: rest) w =
    Errored (ArgError 4 "string expected, got nil") [].
Proof.
  intros Hm Hd Ht. unfold verify_doc. call.
  rewrite !bool_decide_eq_true_2 by done. call.
  rewrite Ht. call. reflexivity.
Qed.

Lemma verify_doc_requires_id_attr_example :
  lua_call (@verify_doc Scenario.backend) [LLightUserdata 12288; LLightUserdata 4096; LTable ∅] [] =
    Errored (ArgError 4 "string expected, got nil") [].
Proof.
  exact (@verify_doc_requires_id_attr Scenario.backend 12288 4096 ∅ [] []
           ltac:(discriminate) ltac:(discriminate) ltac:(reflexivity)).
Defined.

Section Signing.
Context {B : Backend}.

(** [sign_xml] without options: the document is freed on both returns. *)
Lemma sign_xml_frees_on_return (key tid : ptr) (data : string) (w : world) :
  key ≠ NULL -> tid ≠ NULL ->
  exists rets evs,
    lua_call sign_xml [LLightUserdata key; LLightUserdata tid; LString data] w =
      Returned rets evs /\
    (xmlReadMemory w data = NULL ->
       rets = Fail "unable to parse xml string" /\ evs = [EvXmlReadMemory data NULL]) /\
    (xmlReadMemory w data ≠ NULL ->
       last evs = Some (EvXmlFreeDoc (xmlReadMemory w data))).
Proof.
  intros Hk Ht. unfold sign_xml, sign_get_opts. call.
  rewrite !bool_decide_eq_true_2 by done. call.
  case_decide as Hdoc; call.
  - do 2 eexists. split; [reflexivity|]. split; [|done].
    intros _. rewrite Hdoc. done.
  - case_decide; call; do 2 eexists; (split; [reflexivity|]); (split; [done|]);
      intros _; reflexivity.
Qed.

End Signing.

(** C6. [sign_xml] reads the options after it has parsed the text: when the
    options are refused (here [insert_after] is a table, but not of two
    elements) the argument error leaves the function with the document
    parsed and not freed. *)
Theorem sign_xml_leaks_on_option_error `{B : Backend} (key tid : ptr) (data : string)
    (t ins : gmap lua_key lua_value) (rest : list lua_value) (w : world) :
  key ≠ NULL -> tid ≠ NULL ->
  xmlReadMemory w data ≠ NULL ->
  t !! KStr "id_attr" = None ->
  t !! KStr "insert_after" = Some (LTable ins) ->
  luaH_getn ins ≠ 2 ->
  lua_call sign_xml (LLightUserdata key :: LLightUserdata tid :: LString data :: LTable t :: rest) w =
    Errored (ArgError 4 "insert_after must be a table of form {namespace, element}")
            [EvXmlReadMemory data (xmlReadMemory w data)].
Proof.
  intros Hk Ht Hdoc Hid Hins Hlen. unfold sign_xml, sign_get_opts. call.
  rewrite !bool_decide_eq_true_2 by done. call.
  rewrite decide_False by done. call.
  rewrite Hid, Hins. call.
  rewrite decide_True by done. call. reflexivity.
Qed.

Lemma sign_xml_leaks_on_option_error_example :
  lua_call (@sign_xml Scenario.backend)
    [LLightUserdata 8192; LLightUserdata 16392; LString "<a/>";
     LTable Scenario.short_insert_after] [] =
    Errored (ArgError 4 "insert_after must be a table of form {namespace, element}")
            [EvXmlReadMemory "<a/>" 4096].
Proof.
  exact (@sign_xml_leaks_on_option_error Scenario.backend 8192 16392 "<a/>"
           Scenario.short_insert_after {[ KNum 1 := LString "urn:ns" ]} [] []
           ltac:(discriminate) ltac:(discriminate) ltac:(vm_compute; discriminate)
           ltac:(reflexivity) ltac:(reflexivity) ltac:(vm_compute; discriminate)).
Defined.

(** ** The transform registry *)

Lemma find_by_href_unknown (ids : list transform_klass) (uri : string) :
  uri ∉ href <$> ids -> xmlSecTransformIdListFindByHref ids uri = NULL.
Proof.
  induction ids as [|k ids IH]; simpl; [done|].
  intros Hnot. apply not_elem_of_cons in Hnot as [Hne Hnot].
  rewrite decide_False by done. auto.
Qed.

Lemma find_by_href_first (pre post : list transform_klass) (k : transform_klass) (uri : string) :
  uri ∉ href <$> pre -> href k = uri ->
  xmlSecTransformIdListFindByHref (pre ++ k :: post) uri = klass_id k.
Proof.
  induction pre as [|k' pre IH]; simpl; intros Hnot Hk.
  - rewrite decide_True by done. reflexivity.
  - apply not_elem_of_cons in Hnot as [Hne Hnot].
    rewrite decide_False by done. auto.
Qed.

(** A string without a NUL byte is the C string it is read as. *)
Lemma c_str_no_nul (s : string) : Ascii.zero ∉ String.list_ascii_of_string s -> c_str s = s.
Proof.
  induction s as [|c s IH]; simpl; [done|].
  intros Hnot. apply not_elem_of_cons in Hnot as [Hne Hnot].
  destruct (Ascii.eqb_spec c Ascii.zero) as [->|_]; [done|].
  rewrite IH by done. reflexivity.
Qed.

(** C5. With every registered transform id a real address, a URI that is
    not in the table of supported algorithm URIs resolves to nil (no error,
    no leaving the model), and a URI that is in the table resolves to the
    transform id of its entry (the first one, should the URI be repeated).
    The URI is the argument as a C string. *)
Theorem find_transform_by_href_resolves `{B : Backend}
    (uri : string) (rest : list lua_value) (w : world) :
  Forall (fun k => klass_id k ≠ NULL) (xmlSecTransformIdsGet w) ->
  (c_str uri ∉ href <$> xmlSecTransformIdsGet w ->
     lua_call find_transform_by_href (LString uri :: rest) w =
       Returned [LNil] [EvTransformFindByHref (c_str uri) NULL])
  /\ (forall pre k post,
        xmlSecTransformIdsGet w = pre ++ k :: post ->
        c_str uri ∉ href <$> pre -> href k = c_str uri ->
        lua_call find_transform_by_href (LString uri :: rest) w =
          Returned [LLightUserdata (klass_id k)] [EvTransformFindByHref (c_str uri) (klass_id k)]).
Proof.
  intros Hids. split.
  - intros Hnot. unfold find_transform_by_href. call.
    rewrite (find_by_href_unknown _ _ Hnot). call. reflexivity.
  - intros pre k post Hsplit Hnot Hk. unfold find_transform_by_href. call.
    rewrite Hsplit, (find_by_href_first _ _ _ _ Hnot Hk).
    rewrite Hsplit in Hids. apply Forall_app in Hids as [_ Hids].
    apply Forall_cons in Hids as [Hid _].
    rewrite decide_False by done. call. reflexivity.
Qed.

Lemma find_transform_by_href_resolves_example :
  lua_call (@find_transform_by_href Scenario.backend) [LString "not-a-real-uri"] [] =
    Returned [LNil] [EvTransformFindByHref "not-a-real-uri" NULL]
  /\ lua_call (@find_transform_by_href Scenario.backend) [LString Scenario.rsa_sha256] [] =
    Returned [LLightUserdata 16392] [EvTransformFindByHref Scenario.rsa_sha256 16392].
Proof.
  assert (Forall (fun k => klass_id k ≠ NULL) (@xmlSecTransformIdsGet Scenario.backend [])) as Hids.
  { repeat constructor; simpl; discriminate. }
  split.
  - apply (proj1 (@find_transform_by_href_resolves Scenario.backend "not-a-real-uri" [] [] Hids)).
    vm_compute. intros H. repeat (inversion H as [|? ? ? H']; clear H; rename H' into H; subst).
  - apply (proj2 (@find_transform_by_href_resolves Scenario.backend Scenario.rsa_sha256 [] [] Hids)
             [ {| href := Scenario.rsa_sha1; klass_id := 16384 |} ]
             {| href := Scenario.rsa_sha256; klass_id := 16392 |} []).
    + reflexivity.
    + vm_compute. intros H. repeat (inversion H as [|? ? ? H']; clear H; rename H' into H; subst).
    + reflexivity.
Defined.

(** ** The keys manager *)

Section KeysManager.
Context {B : Backend}.

(** One turn of the loop of [create_keys_mngr]. *)
Lemma adopt_body_run (m : ptr) (t : gmap lua_key lua_value) (i : Z) (tr : world) :
  let v := default LNil (t !! KNum i) in
  let key := match v with LUserdata p | LLightUserdata p => p | _ => NULL end in
  let a := xmlSecCryptoAppDefaultKeysMngrAdoptKey tr m key in
  adopt_body m i {| stack := [LTable t]; trace := tr |} =
    if decide (key = NULL) then
      Raise (ArgError 2 "`xmlSecKey*' expected") {| stack := [LTable t; v]; trace := tr |}
    else if decide (a ≠ 0) then
      Ok (Some 2) {| stack := Fail "adopt key failed";
                     trace := tr ++ [EvKeysMngrAdoptKey m key a; EvKeysMngrDestroy m] |}
    else
      Ok None {| stack := [LTable t]; trace := tr ++ [EvKeysMngrAdoptKey m key a] |}.
Proof.
  intros v key a. unfold adopt_body. exec. fold v. fold key.
  destruct (decide (key = NULL)) as [Hkey|Hkey].
  - rewrite bool_decide_eq_false_2 by (intros Hne; exact (Hne Hkey)). reflexivity.
  - rewrite bool_decide_eq_true_2 by exact Hkey. exec. fold a.
    case_decide; exec; rewrite <- ?app_assoc; reflexivity.
Qed.

(** The loop of [create_keys_mngr], from any turn on: it ends with every
    key adopted, or with the first refused key, the manager destroyed and
    the failure on the stack, or with an argument error. *)
Lemma adopt_loop_run (m : ptr) (t : gmap lua_key lua_value) (count : nat) :
  forall (i : Z) (tr : world),
    match for_loop count i (adopt_body m) {| stack := [LTable t]; trace := tr |} with
    | Ok None L =>
        stack L = [LTable t] /\
        exists ads, trace L = tr ++ ads /\ Forall (adopted m) ads
    | Ok (Some n) L =>
        n = 2 /\ stack L = Fail "adopt key failed" /\
        exists ads k r,
          trace L = tr ++ ads ++ [EvKeysMngrAdoptKey m k r; EvKeysMngrDestroy m] /\
          r ≠ 0 /\ Forall (adopted m) ads
    | Raise e L => exists ads, trace L = tr ++ ads /\ Forall (adopted m) ads
    | Stuck => False
    end.
Proof.
  induction count as [|count IH]; intros i tr.
  - simpl. split; [done|]. exists []. rewrite app_nil_r. done.
  - rewrite for_loop_step, adopt_body_run. cbv zeta.
    set (key := match default LNil (t !! KNum i) with
                | LUserdata p | LLightUserdata p => p
                | _ => NULL
                end).
    case_decide as Hkey.
    { exists []. rewrite app_nil_r. done. }
    case_decide as Ha.
    { split; [done|]. split; [done|].
      exists [], key, (xmlSecCryptoAppDefaultKeysMngrAdoptKey tr m key). done. }
    rewrite Ha.
    specialize (IH (i + 1) (tr ++ [EvKeysMngrAdoptKey m key 0])).
    destruct (for_loop count (i + 1) (adopt_body m) _) as [[n|] L|e L|]; [| | |done].
    + destruct IH as (-> & Hst & ads & k & r & Htr & Hr & Hads).
      split; [done|]. split; [done|].
      exists (EvKeysMngrAdoptKey m key 0 :: ads), k, r.
      rewrite Htr, <- app_assoc. split; [done|]. split; [done|].
      constructor; [by exists key | done].
    + destruct IH as (Hst & ads & Htr & Hads). split; [done|].
      exists (EvKeysMngrAdoptKey m key 0 :: ads).
      rewrite Htr, <- app_assoc. split; [done|].
      constructor; [by exists key | done].
    + destruct IH as (ads & Htr & Hads).
      exists (EvKeysMngrAdoptKey m key 0 :: ads).
      rewrite Htr, <- app_assoc. split; [done|].
      constructor; [by exists key | done].
Qed.

End KeysManager.

Lemma failed_adoption_not_adopted (m : ptr) (ads : list event) (m' k : ptr) (r : Z) :
  Forall (adopted m) ads -> r ≠ 0 -> EvKeysMngrAdoptKey m' k r ∉ ads.
Proof.
  intros Hads Hr Hin. rewrite Forall_forall in Hads.
  destruct (Hads _ Hin) as [k' Heq]. congruence.
Qed.

(** C3. Whenever an adoption fails during [create_keys_mngr] (the call's
    events hold an adoption with a non-zero result), the call returns nil and
    the error string, never the manager, and its events are: the manager
    created and initialised, the keys adopted before, the adoption that
    failed, and last the destruction of that manager. *)
Theorem create_keys_mngr_atomic `{B : Backend} (args : list lua_value) (w : world) :
  (exists m k r,
      r ≠ 0 /\ EvKeysMngrAdoptKey m k r ∈ events_of (lua_call create_keys_mngr args w)) ->
  exists m r0 ads k r,
    lua_call create_keys_mngr args w =
      Returned (Fail "adopt key failed")
               (EvKeysMngrCreate m :: EvKeysMngrInit m r0 ::
                  ads ++ [EvKeysMngrAdoptKey m k r; EvKeysMngrDestroy m])
    /\ r ≠ 0 /\ Forall (adopted m) ads.
Proof.
  intros (m' & k' & r' & Hr' & Hin). revert Hin.
  unfold create_keys_mngr.
  destruct args as [|a1 rest]; call.
  { intros Hin. inversion Hin. }
  destruct a1; call; try (intros Hin; inversion Hin; fail).
  set (m := xmlSecKeysMngrCreate w).
  case_decide as Hm; call.
  { intros Hin. repeat (apply elem_of_cons in Hin as [Hin|Hin]; [discriminate|]).
    inversion Hin. }
  set (r0 := xmlSecCryptoAppDefaultKeysMngrInit _ m).
  case_decide as Hr0; call.
  { intros Hin. repeat (apply elem_of_cons in Hin as [Hin|Hin]; [discriminate|]).
    inversion Hin. }
  pose proof (adopt_loop_run m t (Z.to_nat (luaH_getn t)) 1
                (w ++ [EvKeysMngrCreate m; EvKeysMngrInit m r0])) as Hloop.
  destruct (for_loop _ 1 (adopt_body m) _) as [[n|] [st tr]|e [st tr]|];
    simpl in Hloop; [| | |done].
  - destruct Hloop as (-> & -> & ads & k & r & -> & Hr & Hads).
    call. intros _. exists m, r0, ads, k, r. done.
  - destruct Hloop as (-> & ads & -> & Hads). call.
    intros Hin. repeat (apply elem_of_cons in Hin as [Hin|Hin]; [discriminate|]).
    by apply (failed_adoption_not_adopted m ads m' k' r') in Hin.
  - destruct Hloop as (ads & -> & Hads). call.
    intros Hin. repeat (apply elem_of_cons in Hin as [Hin|Hin]; [discriminate|]).
    by apply (failed_adoption_not_adopted m ads m' k' r') in Hin.
Qed.

Lemma create_keys_mngr_atomic_example :
  exists m r0 ads k r,
    lua_call (@create_keys_mngr Scenario.backend) [LTable Scenario.two_keys] [] =
      Returned (Fail "adopt key failed")
               (EvKeysMngrCreate m :: EvKeysMngrInit m r0 ::
                  ads ++ [EvKeysMngrAdoptKey m k r; EvKeysMngrDestroy m])
    /\ r ≠ 0 /\ Forall (adopted m) ads.
Proof.
  apply (@create_keys_mngr_atomic Scenario.backend [LTable Scenario.two_keys] []).
  exists 12288, 666, (-1). split; [discriminate|].
  vm_compute. do 3 apply list_elem_of_further. apply list_elem_of_here.
Defined.

(** ** The attribute table *)

Lemma table_get_set (k k' : lua_key) (v : lua_value) (t : gmap lua_key lua_value) :
  table_get (table_set k v t) k' = if decide (k = k') then v else table_get t k'.
Proof.
  unfold table_get, table_set. case_decide as Hk.
  - subst k'. destruct v; rewrite ?lookup_delete_eq, ?lookup_insert_eq; reflexivity.
  - destruct v; rewrite ?lookup_delete_ne, ?lookup_insert_ne by done; reflexivity.
Qed.

(** Filling a list from index [j + 1] on leaves the lower indices alone. *)
Lemma values_from_below (vs : list (option string)) :
  forall (j : Z) (t : gmap lua_key lua_value) (k : lua_key),
    (forall i, k = KNum i -> i <= j) ->
    table_get (values_from j vs t) k = table_get t k.
Proof.
  induction vs as [|v vs IH]; intros j t k Hk; simpl; [reflexivity|].
  rewrite IH.
  - rewrite table_get_set. case_decide as Heq; [|reflexivity].
    specialize (Hk (j + 1) (eq_sym Heq)). lia.
  - intros i Hi. specialize (Hk i Hi). lia.
Qed.

(** Index [j + 1] of the list holds the [j]-th value, in the order of the
    array. *)
Lemma values_from_lookup (vs : list (option string)) :
  forall (j0 : Z) (t : gmap lua_key lua_value) (j : nat) (v : option string),
    vs !! j = Some v ->
    table_get (values_from j0 vs t) (KNum (j0 + Z.of_nat j + 1)) = value_or_nil v.
Proof.
  induction vs as [|v0 vs IH]; intros j0 t j v Hj; [done|].
  destruct j as [|j]; simpl in *.
  - injection Hj as ->. rewrite values_from_below.
    + rewrite table_get_set, decide_True; [reflexivity|]. f_equal. lia.
    + intros i [= <-]. lia.
  - replace (j0 + Z.of_nat (S j) + 1) with ((j0 + 1) + Z.of_nat j + 1) by lia.
    apply (IH (j0 + 1)). exact Hj.
Qed.

(** The table keeps, for a name, the value of the last attribute of that
    name. *)
Lemma store_attr_last (l : list saml_attr_t) :
  forall (T : gmap lua_key lua_value) (i : nat) (a : saml_attr_t) (n : string),
    l !! i = Some a -> name a = Some n ->
    (forall i' a', (i < i')%nat -> l !! i' = Some a' -> name a' ≠ Some n) ->
    table_get (fold_left store_attr l T) (KStr n) = attr_value a.
Proof.
  induction l as [|b l IH] using rev_ind; intros T i a n Hi Hn Hlast; [done|].
  rewrite fold_left_app. simpl.
  destruct (decide (i = length l)) as [->|Hne].
  - rewrite lookup_app_r, Nat.sub_diag in Hi by done. injection Hi as ->.
    unfold store_attr at 1. rewrite Hn, table_get_set, decide_True by done. reflexivity.
  - assert (i < length l)%nat as Hlt.
    { apply lookup_lt_Some in Hi. rewrite length_app in Hi. simpl in Hi. lia. }
    rewrite lookup_app_l in Hi by done.
    assert (name b ≠ Some n) as Hb.
    { apply (Hlast (length l) b Hlt).
      rewrite lookup_app_r, Nat.sub_diag by done. reflexivity. }
    unfold store_attr at 1. destruct (name b) as [nb|] eqn:Hnb.
    + rewrite table_get_set, decide_False by congruence.
      apply (IH T i a n Hi Hn). intros i' a' Hi' Ha'.
      apply (Hlast i' a' Hi'). rewrite lookup_app_l; [done|].
      by apply lookup_lt_Some in Ha'.
    + apply (IH T i a n Hi Hn). intros i' a' Hi' Ha'.
      apply (Hlast i' a' Hi'). rewrite lookup_app_l; [done|].
      by apply lookup_lt_Some in Ha'.
Qed.

Section Attributes.
Context {B : Backend}.

(** One turn of the inner loop: [list[j + 1] = values[j]]. *)
Lemma attrs_value_body_run (a : saml_attr_t) (T t : gmap lua_key lua_value) (n : string)
    (tr : world) (j : nat) (v : option string) :
  values a !! j = Some v ->
  attrs_value_body a (Z.of_nat j)
    {| stack := [LTable T; LString n; LTable t]; trace := tr |} =
  Ok None {| stack := [LTable T; LString n;
                       LTable (table_set (KNum (Z.of_nat j + 1)) (value_or_nil v) t)];
             trace := tr |}.
Proof.
  intros Hv. unfold attrs_value_body. exec.
  rewrite Nat2Z.id, Hv. destruct v; exec; reflexivity.
Qed.

(** The inner loop fills the list on top of the stack. *)
Lemma attrs_value_loop_run (a : saml_attr_t) (T : gmap lua_key lua_value) (n : string)
    (tr : world) (count : nat) :
  forall (j : nat) (t : gmap lua_key lua_value),
    (j + count <= length (values a))%nat ->
    for_loop count (Z.of_nat j) (attrs_value_body a)
      {| stack := [LTable T; LString n; LTable t]; trace := tr |} =
    Ok None {| stack := [LTable T; LString n;
                         LTable (values_from (Z.of_nat j) (take count (drop j (values a))) t)];
               trace := tr |}.
Proof.
  induction count as [|count IH]; intros j t Hlen; [reflexivity|].
  destruct (values a !! j) as [v|] eqn:Hv;
    [|apply lookup_ge_None in Hv; lia].
  rewrite for_loop_step, (attrs_value_body_run a T t n tr j v Hv).
  rewrite (drop_S _ _ _ Hv). cbn [take values_from].
  replace (Z.of_nat j + 1) with (Z.of_nat (S j)) by lia.
  apply IH. lia.
Qed.

(** One turn of the outer loop stores one attribute. *)
Lemma attrs_body_run (l : list saml_attr_t) (i : nat) (a : saml_attr_t)
    (T : gmap lua_key lua_value) (tr : world) :
  l !! i = Some a ->
  attrs_body l (Z.of_nat i) {| stack := [LTable T]; trace := tr |} =
    Ok None {| stack := [LTable (store_attr T a)]; trace := tr |}.
Proof.
  intros Hi. unfold attrs_body, store_attr, attr_value.
  rewrite Nat2Z.id, Hi. destruct (name a) as [n|]; [|reflexivity].
  case_decide as H0; [exec; reflexivity|].
  case_decide as H1.
  - destruct (mjoin (values a !! 0%nat)); exec; reflexivity.
  - pose proof (attrs_value_loop_run a T n tr (length (values a)) 0 ∅) as Hloop.
    rewrite drop_0, firstn_all in Hloop. specialize (Hloop ltac:(lia)).
    unfold num_values. rewrite Nat2Z.id.
    unfold_api. simpl app. change (Z.of_nat 0) with 0 in Hloop. rewrite Hloop.
    exec. reflexivity.
Qed.

Lemma attrs_loop_run (l : list saml_attr_t) (tr : world) (count : nat) :
  forall (i : nat) (T : gmap lua_key lua_value),
    (i + count <= length l)%nat ->
    for_loop count (Z.of_nat i) (attrs_body l) {| stack := [LTable T]; trace := tr |} =
    Ok None {| stack := [LTable (fold_left store_attr (take count (drop i l)) T)];
               trace := tr |}.
Proof.
  induction count as [|count IH]; intros i T Hlen; [reflexivity|].
  destruct (l !! i) as [a|] eqn:Ha; [|apply lookup_ge_None in Ha; lia].
  rewrite for_loop_step, (attrs_body_run l i a T tr Ha).
  rewrite (drop_S _ _ _ Ha). cbn [take fold_left].
  replace (Z.of_nat i + 1) with (Z.of_nat (S i)) by lia.
  apply IH. lia.
Qed.

(** [attrs] on a document the engine can read. *)
Lemma attrs_run (doc : ptr) (rest : list lua_value) (w : world) :
  doc ≠ NULL -> ¬ (saml_doc_attrs w doc).1 < 0 ->
  lua_call attrs (LLightUserdata doc :: rest) w =
    Returned [LTable (fold_left store_attr (saml_doc_attrs w doc).2 ∅)]
             [EvSamlDocAttrs doc (saml_doc_attrs w doc).1 (saml_doc_attrs w doc).2;
              EvSamlFreeAttrs (saml_doc_attrs w doc).2].
Proof.
  intros Hdoc Hres. unfold attrs. call.
  rewrite bool_decide_eq_true_2 by done. call.
  rewrite decide_False by done. call.
  pose proof (attrs_loop_run (saml_doc_attrs w doc).2
                (w ++ [EvSamlDocAttrs doc (saml_doc_attrs w doc).1 (saml_doc_attrs w doc).2])
                (length (saml_doc_attrs w doc).2) 0 ∅) as Hloop.
  rewrite drop_0, firstn_all in Hloop. specialize (Hloop ltac:(lia)).
  change (Z.of_nat 0) with 0 in Hloop. rewrite Hloop. call. reflexivity.
Qed.

End Attributes.

(** C4, as amended.  When the engine hands over the attributes of a
    document, [attrs] returns one table, keyed by attribute name; for every
    attribute with a name that no later attribute repeats: with no value the
    entry is nil; with exactly one value it is that string, or nil when the
    value is [NULL]; with two or more it is a list whose index [j + 1] holds
    the [j]-th value, in the order of the array, or nothing when that value
    is [NULL]. *)
Theorem attrs_value_shape `{B : Backend} (doc : ptr) (rest : list lua_value) (w : world) :
  doc ≠ NULL -> ¬ (saml_doc_attrs w doc).1 < 0 ->
  exists T,
    lua_call attrs (LLightUserdata doc :: rest) w =
      Returned [LTable T]
               [EvSamlDocAttrs doc (saml_doc_attrs w doc).1 (saml_doc_attrs w doc).2;
                EvSamlFreeAttrs (saml_doc_attrs w doc).2]
    /\ forall (i : nat) (a : saml_attr_t) (n : string),
        (saml_doc_attrs w doc).2 !! i = Some a -> name a = Some n ->
        (forall i' a', (i < i')%nat -> (saml_doc_attrs w doc).2 !! i' = Some a' ->
                       name a' ≠ Some n) ->
        match values a with
        | [] => table_get T (KStr n) = LNil
        | [v] => table_get T (KStr n) = value_or_nil v
        | _ :: _ :: _ =>
            exists t, table_get T (KStr n) = LTable t /\
                      forall (j : nat) (v : option string),
                        values a !! j = Some v ->
                        table_get t (KNum (Z.of_nat j + 1)) = value_or_nil v
        end.
Proof.
  intros Hdoc Hres. eexists. split; [apply attrs_run; done|].
  intros i a n Hi Hn Hlast.
  rewrite (store_attr_last _ ∅ i a n Hi Hn Hlast).
  unfold attr_value, num_values.
  destruct (values a) as [|v1 [|v2 vs]] eqn:Hvs; simpl length.
  - reflexivity.
  - reflexivity.
  - rewrite decide_False by lia. rewrite decide_False by lia.
    eexists. split; [reflexivity|].
    intros j v Hj. apply (values_from_lookup _ 0 ∅ j v Hj).
Qed.

Lemma attrs_value_shape_example :
  exists T,
    lua_call (@attrs Scenario.backend) [LLightUserdata 4096] [] =
      Returned [LTable T]
               [EvSamlDocAttrs 4096 0 (@saml_doc_attrs Scenario.backend [] 4096).2;
                EvSamlFreeAttrs (@saml_doc_attrs Scenario.backend [] 4096).2]
    /\ table_get T (KStr "email") = LString "a@b.com"
    /\ table_get T (KStr "none") = LNil
    /\ exists t, table_get T (KStr "groups") = LTable t
                 /\ table_get t (KNum 1) = LString "x" /\ table_get t (KNum 2) = LString "y".
Proof.
  destruct (@attrs_value_shape Scenario.backend 4096 [] [])
    as (T & Hcall & Hshape); [discriminate | vm_compute; discriminate |].
  assert (forall i' a', (@saml_doc_attrs Scenario.backend [] 4096).2 !! i' = Some a' ->
                        (i' < 3)%nat) as Hlen.
  { intros i' a' H. apply lookup_lt_Some in H. exact H. }
  exists T. split; [exact Hcall|]. split; [|split].
  - apply (Hshape 0%nat {| name := Some "email"; values := [Some "a@b.com"] |} "email");
      [reflexivity | reflexivity |].
    intros i' a' Hi' Ha'. pose proof (Hlen _ _ Ha').
    destruct i' as [|[|[|i']]]; try lia; injection Ha' as <-; discriminate.
  - apply (Hshape 2%nat {| name := Some "none"; values := [] |} "none");
      [reflexivity | reflexivity |].
    intros i' a' Hi' Ha'. pose proof (Hlen _ _ Ha'). lia.
  - destruct (Hshape 1%nat {| name := Some "groups"; values := [Some "x"; Some "y"] |} "groups")
      as (t & Ht & Hlist); [reflexivity | reflexivity | |].
    + intros i' a' Hi' Ha'. pose proof (Hlen _ _ Ha').
      destruct i' as [|[|[|i']]]; try lia; injection Ha' as <-; discriminate.
    + exists t. split; [exact Ht|]. split.
      * apply (Hlist 0%nat (Some "x")). reflexivity.
      * apply (Hlist 1%nat (Some "y")). reflexivity.
Defined.

(** C4 as it was stated fails where the engine reports a [NULL] value: an
    attribute with exactly one value, that value [NULL], is not a string in
    the result but nil. *)
Lemma attrs_null_value_is_not_string :
  ¬ @one_value_is_string Scenario.backend 4097 [].
Proof.
  intros Hclaim.
  destruct (Hclaim (fold_left store_attr (@saml_doc_attrs Scenario.backend [] 4097).2 ∅)
              [EvSamlDocAttrs 4097 0 (@saml_doc_attrs Scenario.backend [] 4097).2;
               EvSamlFreeAttrs (@saml_doc_attrs Scenario.backend [] 4097).2]
              {| name := Some "a"; values := [None] |} "a") as [s Hs].
  - apply (@attrs_run Scenario.backend 4097 [] []); [discriminate | vm_compute; discriminate].
  - apply list_elem_of_here.
  - reflexivity.
  - reflexivity.
  - vm_compute in Hs. discriminate.
Qed.

(** * More properties of the binding *)

(** ** Reading the options of a signing call *)

(** Popping as many slots as the stack holds empties it. *)
Lemma lua_pop_all (st : list lua_value) (tr : world) :
  lua_pop (Z.of_nat (length st)) {| stack := st; trace := tr |} =
    Ok tt {| stack := []; trace := tr |}.
Proof.
  unfold lua_pop, lua_settop. unfold_api.
  rewrite decide_False by lia. rewrite decide_True by lia.
  replace (Z.of_nat (length st) + (- Z.of_nat (length st) - 1) + 1) with 0 by lia.
  reflexivity.
Qed.

#[local] Arguments lua_pop : simpl never.

(** As [exec], up to the [lua_pop] that follows [sign_get_opts]. *)
Ltac exec_to_opts :=
  cbv beta iota zeta delta
    [mbind M_bind mret M_ret fmap M_fmap raise stuck get_stack put_stack extern extern_void
     lua_settop lua_type lua_isnil lua_isnone lua_isnoneornil lua_touserdata
     lua_tolstring push lua_pushnil lua_pushboolean lua_pushinteger lua_pushlightuserdata
     lua_pushlstring lua_pushstring lua_newtable lua_getfield lua_rawgeti lua_settable
     lua_objlen luaL_argerror luaL_typerror luaL_argcheck luaL_checktype luaL_checklstring
     index2adr slot stack trace option_bind compose];
  simpl.

(** X1. On the four-slot stack of [sign_doc] and [sign_xml], whatever the
    options argument is, [sign_get_opts] calls no callee and never leaves the
    model.  When it returns, the count it returns is the height of the stack,
    so the caller's [lua_pop] empties the stack; the three arguments below
    the options are untouched; and [insert_after_ns] and [insert_after_el]
    are set together or not at all.  When it raises, the argument number of
    the error is between 4 and 8. *)
Theorem sign_get_opts_slots `{B : Backend} (a1 a2 a3 o : lua_value) (tr : world) :
  match sign_get_opts 4 {| stack := [a1; a2; a3; o]; trace := tr |} with
  | Ok r L =>
      r.1 = Z.of_nat (length (stack L)) /\ trace L = tr /\
      take 3 (stack L) = [a1; a2; a3] /\
      (insert_after_ns r.2 = None <-> insert_after_el r.2 = None)
  | Raise e L => trace L = tr /\ exists narg msg, e = ArgError narg msg /\ 4 <= narg <= 8
  | Stuck => False
  end.
Proof.
  unfold sign_get_opts.
  destruct o; exec; try (split_and!; eauto; done).
  all: try (split; [done|]; do 2 eexists; split; [reflexivity|lia]).
  destruct (t !! KStr "id_attr") as [[]|]; exec.
  all: try (split; [done|]; do 2 eexists; split; [reflexivity|lia]).
  all: destruct (t !! KStr "insert_after") as [[]|]; exec; try (split_and!; eauto; done).
  all: try (split; [done|]; do 2 eexists; split; [reflexivity|lia]).
  all: case_decide; exec.
  all: try (split; [done|]; do 2 eexists; split; [reflexivity|lia]).
  all: destruct (t0 !! KNum 1) as [[]|]; exec.
  all: try (split; [done|]; do 2 eexists; split; [reflexivity|lia]).
  all: destruct (t0 !! KNum 2) as [[]|]; exec.
  all: try (split; [done|]; do 2 eexists; split; [reflexivity|lia]).
  all: try (split_and!; eauto; done).
Qed.

Section Options.
Context {B : Backend}.

(** The same invariant, for the proofs below. *)
Lemma sign_get_opts_total (a1 a2 a3 o : lua_value) (tr : world) :
  match sign_get_opts 4 {| stack := [a1; a2; a3; o]; trace := tr |} with
  | Ok r L => r.1 = Z.of_nat (length (stack L)) /\ trace L = tr
  | Raise e L => trace L = tr
  | Stuck => False
  end.
Proof.
  unfold sign_get_opts.
  destruct o; exec; try done.
  destruct (t !! KStr "id_attr") as [[]|]; exec; try done.
  all: destruct (t !! KStr "insert_after") as [[]|]; exec; try done.
  all: case_decide; exec; try done.
  all: destruct (t0 !! KNum 1) as [[]|]; exec; try done.
  all: destruct (t0 !! KNum 2) as [[]|]; exec; done.
Qed.

Lemma sign_get_opts_accepts (a1 a2 a3 o : lua_value) (opts : saml_doc_opts_t) (n : Z)
    (tr : world) :
  sign_options o opts n ->
  exists st,
    sign_get_opts 4 {| stack := [a1; a2; a3; o]; trace := tr |} =
      Ok (n, opts) {| stack := st; trace := tr |}
    /\ Z.of_nat (length st) = n.
Proof.
  intros Hopts. unfold sign_get_opts.
  destruct Hopts as [|t id Hid Hins|t id p ns el Hid Hins Hlen H1 H2]; exec.
  - eexists. split; reflexivity.
  - rewrite Hid, Hins. destruct id; exec; eexists; split; reflexivity.
  - rewrite Hid, Hins. destruct id; exec.
    all: rewrite decide_False by (rewrite Hlen; intros Hne; exact (Hne eq_refl)); exec.
    all: rewrite H1, H2; exec; eexists; split; reflexivity.
Qed.

(** [sign_xml], for every call. *)
Lemma sign_xml_total (args : list lua_value) (w : world) :
  match lua_call sign_xml args w with
  | Returned rets evs =>
      exists data opts,
        let key := to_userdata (arg args 0) in
        let tid := to_userdata (arg args 1) in
        (rets, evs) = sign_xml_outcome w key tid data opts /\
        to_lstring (arg args 2) = Some data /\ key ≠ NULL /\ tid ≠ NULL
  | Errored e evs =>
      evs = [] \/
      exists data, to_lstring (arg args 2) = Some data /\ xmlReadMemory w data ≠ NULL /\
                   evs = [EvXmlReadMemory data (xmlReadMemory w data)]
  | Undefined => False
  end.
Proof.
  unfold sign_xml, lua_call, sign_xml_outcome.
  destruct args as [|a1 [|a2 [|a3 [|a4 rest]]]]; exec_to_opts;
    try (rewrite drop_all; left; done).
  all: destruct a1; exec_to_opts; try (rewrite drop_all; left; done).
  all: case_bool_decide; exec_to_opts; try (rewrite drop_all; left; done).
  all: destruct a2; exec_to_opts; try (rewrite drop_all; left; done).
  all: case_bool_decide; exec_to_opts; try (rewrite drop_all; left; done).
  all: try (destruct a3; exec_to_opts; try (rewrite drop_all; left; done)).
  all: unfold arg; simpl.
  all: match goal with
       | |- context [decide (xmlReadMemory ?w0 ?d = NULL)] =>
           destruct (decide (xmlReadMemory w0 d = NULL)) as [Hdoc|Hdoc]
       end;
       [call; eexists _, no_opts; rewrite decide_True by done; done|].
  all: try match goal with
       | |- context [sign_get_opts 4 {| stack := [?a; ?b; ?c; ?o]; trace := ?t |}] =>
           pose proof (sign_get_opts_total a b c o t) as Hopts;
           destruct (sign_get_opts 4 _) as [[slots opts] [st tr]|e [st tr]|];
           simpl in Hopts;
           [destruct Hopts as (-> & ->); simpl; rewrite lua_pop_all
           |subst tr; events; right; eexists;
            split_and!; [reflexivity | done | reflexivity]
           |done]
       end.
  all: match goal with
       | |- context [decide (saml_sign_doc ?w0 ?k ?t ?d ?o = 0)] =>
           destruct (decide (saml_sign_doc w0 k t d o = 0))
       end; call; do 2 eexists; rewrite decide_False by done.
  all: try (rewrite decide_True by done; done).
  all: try (rewrite decide_False by done; done).
Qed.

End Options.

(** X2. [sign_get_opts] reads the options it accepts as follows: nil gives
    no option; a table gives its [id_attr] (a string, or absent) as a C
    string; an [insert_after] of two strings gives the namespace and the
    element.  It returns 4, 6 or 8, the slots then on the stack, and leaves
    the trace alone. *)
Theorem sign_get_opts_reads_options `{B : Backend} (a1 a2 a3 o : lua_value)
    (opts : saml_doc_opts_t) (n : Z) (tr : world) :
  sign_options o opts n ->
  exists st,
    sign_get_opts 4 {| stack := [a1; a2; a3; o]; trace := tr |} =
      Ok (n, opts) {| stack := st; trace := tr |}
    /\ Z.of_nat (length st) = n.
Proof. apply sign_get_opts_accepts. Qed.

Lemma sign_options_full : @sign_options Scenario.backend (LTable ScenarioX.full_options)
                            ScenarioX.full_opts 8.
Proof.
  apply (@sign_options_insert_after Scenario.backend ScenarioX.full_options (Some "ID")
           ScenarioX.insert_after "urn:ns" "Issuer"); reflexivity.
Qed.

Lemma sign_get_opts_reads_options_example :
  exists st,
    @sign_get_opts Scenario.backend 4
      {| stack := [LNil; LNil; LNil; LTable ScenarioX.full_options]; trace := [] |} =
      Ok (8, ScenarioX.full_opts) {| stack := st; trace := [] |}
    /\ Z.of_nat (length st) = 8.
Proof.
  apply (@sign_get_opts_reads_options Scenario.backend). exact sign_options_full.
Defined.

(** X3. With a key, a transform id and options it accepts, [sign_doc] hands
    the engine the key, the transform id, the document pointer it read from
    the third argument and the options as read, once, and returns nil when
    the engine returns 0 and the string "saml sign failed" for any other
    status. *)
Theorem sign_doc_passes_options `{B : Backend} (key tid : ptr) (d o : lua_value)
    (opts : saml_doc_opts_t) (n : Z) (rest : list lua_value) (w : world) :
  key ≠ NULL -> tid ≠ NULL -> sign_options o opts n ->
  let res := saml_sign_doc w key tid (to_userdata d) opts in
  lua_call sign_doc (LLightUserdata key :: LLightUserdata tid :: d :: o :: rest) w =
    Returned [if decide (res = 0) then LNil else LString "saml sign failed"]
             [EvSamlSignDoc key tid (to_userdata d) opts res].
Proof.
  intros Hk Ht Hopts res. unfold sign_doc, lua_call. exec_to_opts.
  rewrite !bool_decide_eq_true_2 by done. exec_to_opts.
  destruct (sign_get_opts_accepts (LLightUserdata key) (LLightUserdata tid) d o opts n w Hopts)
    as (st & -> & <-).
  simpl. rewrite lua_pop_all. fold (to_userdata d). fold res.
  case_decide; call; reflexivity.
Qed.

Lemma sign_doc_passes_options_example :
  lua_call (@sign_doc Scenario.backend)
    [LLightUserdata 8192; LLightUserdata 16392; LLightUserdata 4096;
     LTable ScenarioX.full_options] [] =
    Returned [LNil] [EvSamlSignDoc 8192 16392 4096 ScenarioX.full_opts 0].
Proof.
  exact (@sign_doc_passes_options Scenario.backend 8192 16392 (LLightUserdata 4096)
           (LTable ScenarioX.full_options) ScenarioX.full_opts 8 [] []
           ltac:(discriminate) ltac:(discriminate) sign_options_full).
Defined.

(** X4. Every call of [sign_doc] either raises before the engine is called,
    or calls the engine exactly once, with a key and a transform id that are
    not [NULL], and returns one value: nil exactly when the engine returned
    0.  It never leaves the model. *)
Theorem sign_doc_every_call `{B : Backend} (args : list lua_value) (w : world) :
  match lua_call sign_doc args w with
  | Returned rets evs =>
      exists key tid doc opts,
        evs = [EvSamlSignDoc key tid doc opts (saml_sign_doc w key tid doc opts)] /\
        key ≠ NULL /\ tid ≠ NULL /\
        rets = [if decide (saml_sign_doc w key tid doc opts = 0) then LNil
                else LString "saml sign failed"]
  | Errored e evs => evs = []
  | Undefined => False
  end.
Proof.
  unfold sign_doc, lua_call.
  destruct args as [|a1 [|a2 [|a3 [|a4 rest]]]]; exec_to_opts;
    try (rewrite drop_all; done).
  all: destruct a1; exec_to_opts; try (rewrite drop_all; done).
  all: case_bool_decide; exec_to_opts; try (rewrite drop_all; done).
  all: destruct a2; exec_to_opts; try (rewrite drop_all; done).
  all: case_bool_decide; exec_to_opts; try (rewrite drop_all; done).
  all: try match goal with
       | |- context [sign_get_opts 4 {| stack := [?a; ?b; ?c; ?o]; trace := ?t |}] =>
           pose proof (sign_get_opts_total a b c o t) as Hopts;
           destruct (sign_get_opts 4 _) as [[slots opts] [st tr]|e [st tr]|];
           simpl in Hopts;
           [destruct Hopts as (-> & ->); simpl; rewrite lua_pop_all
           |subst tr; rewrite drop_all; done
           |done]
       end.
  all: case_decide; call; do 4 eexists; (split; [reflexivity|]); split_and!; try done.
  all: try (rewrite decide_True by done; reflexivity).
  all: try (rewrite decide_False by done; reflexivity).
Qed.

(** X5. With a key, a transform id, a text and options it accepts,
    [sign_xml] parses the text; when that fails it returns nil and "unable to
    parse xml string" and nothing else happens (the options are not even
    read); otherwise it signs the parsed document with the options as read,
    returns the dumped text and nil on status 0 and nil and "saml sign
    failed" on any other, and frees the document last. *)
Theorem sign_xml_with_options `{B : Backend} (key tid : ptr) (data : string) (o : lua_value)
    (opts : saml_doc_opts_t) (n : Z) (rest : list lua_value) (w : world) :
  key ≠ NULL -> tid ≠ NULL -> sign_options o opts n ->
  lua_call sign_xml (LLightUserdata key :: LLightUserdata tid :: LString data :: o :: rest) w =
    Returned (sign_xml_outcome w key tid data opts).1 (sign_xml_outcome w key tid data opts).2.
Proof.
  intros Hk Ht Hopts. unfold sign_xml, lua_call, sign_xml_outcome. exec_to_opts.
  rewrite !bool_decide_eq_true_2 by done. exec_to_opts.
  case_decide as Hdoc; [call; reflexivity|].
  destruct (sign_get_opts_accepts (LLightUserdata key) (LLightUserdata tid) (LString data)
              o opts n (w ++ [EvXmlReadMemory data (xmlReadMemory w data)]) Hopts)
    as (st & -> & <-).
  simpl. rewrite lua_pop_all.
  case_decide; call; reflexivity.
Qed.

Lemma sign_xml_with_options_example :
  lua_call (@sign_xml Scenario.backend)
    [LLightUserdata 8192; LLightUserdata 16392; LString "<a/>";
     LTable ScenarioX.full_options] [] =
    Returned [LString "<a><Signature/></a>"; LNil]
             [EvXmlReadMemory "<a/>" 4096;
              EvSamlSignDoc 8192 16392 4096 ScenarioX.full_opts 0;
              EvXmlDocDumpMemory 4096 "<a><Signature/></a>"; EvXmlFree; EvXmlFreeDoc 4096].
Proof.
  exact (@sign_xml_with_options Scenario.backend 8192 16392 "<a/>"
           (LTable ScenarioX.full_options) ScenarioX.full_opts 8 [] []
           ltac:(discriminate) ltac:(discriminate) sign_options_full).
Defined.

(** X6. Every call of [sign_xml]: when it returns, the key and the transform
    id were not [NULL], the third argument was a string (or a number, read
    as its text), and results and events are those of [sign_xml_outcome];
    when it raises, either nothing was called, or the text was parsed into a
    document and that is the only event: the document is not freed.  It
    never leaves the model. *)
Theorem sign_xml_every_call `{B : Backend} (args : list lua_value) (w : world) :
  match lua_call sign_xml args w with
  | Returned rets evs =>
      exists data opts,
        let key := to_userdata (arg args 0) in
        let tid := to_userdata (arg args 1) in
        (rets, evs) = sign_xml_outcome w key tid data opts /\
        to_lstring (arg args 2) = Some data /\ key ≠ NULL /\ tid ≠ NULL
  | Errored e evs =>
      evs = [] \/
      exists data, to_lstring (arg args 2) = Some data /\ xmlReadMemory w data ≠ NULL /\
                   evs = [EvXmlReadMemory data (xmlReadMemory w data)]
  | Undefined => False
  end.
Proof. apply sign_xml_total. Qed.

(** X7. Whatever the arguments, when [sign_xml] calls the signing engine it
    does so with a key, a transform id and a document that are not [NULL],
    and the document is the one it has just parsed, the first event of the
    call. *)
Theorem sign_xml_signs_parsed_document `{B : Backend} (args : list lua_value) (w : world)
    (key tid doc : ptr) (opts : saml_doc_opts_t) (res : Z) :
  EvSamlSignDoc key tid doc opts res ∈ events_of (lua_call sign_xml args w) ->
  key ≠ NULL /\ tid ≠ NULL /\ doc ≠ NULL /\
  exists data, doc = xmlReadMemory w data /\
               head (events_of (lua_call sign_xml args w)) = Some (EvXmlReadMemory data doc).
Proof.
  pose proof (sign_xml_total args w) as H.
  destruct (lua_call sign_xml args w) as [rets evs|e evs|]; simpl.
  - destruct H as (data & o & Hout & _ & Hk & Ht).
    unfold sign_xml_outcome in Hout. revert Hout. cbv zeta.
    case_decide as Hdoc.
    { intros [= -> ->] Hin. apply list_elem_of_singleton in Hin. discriminate. }
    case_decide as Hres; intros [= -> ->] Hin.
    all: apply elem_of_cons in Hin as [Hin|Hin]; [discriminate|].
    all: apply elem_of_cons in Hin as [Hin|Hin];
      [injection Hin as -> -> -> -> ->; split_and!; try done; by eexists|].
    all: repeat (apply elem_of_cons in Hin as [Hin|Hin]; [discriminate|]).
    all: inversion Hin.
  - destruct H as [->|(data & _ & _ & ->)]; intros Hin.
    + inversion Hin.
    + apply list_elem_of_singleton in Hin. discriminate.
  - intros Hin. inversion Hin.
Qed.

Lemma sign_xml_signs_parsed_document_example :
  (8192 ≠ NULL /\ 16392 ≠ NULL /\ 4096 ≠ NULL /\
   exists data, 4096 = @xmlReadMemory Scenario.backend [] data /\
     head (events_of (lua_call (@sign_xml Scenario.backend)
             [LLightUserdata 8192; LLightUserdata 16392; LString "<a/>"] [])) =
       Some (EvXmlReadMemory data 4096)).
Proof.
  apply (@sign_xml_signs_parsed_document Scenario.backend
           [LLightUserdata 8192; LLightUserdata 16392; LString "<a/>"] []
           8192 16392 4096 no_opts 0).
  vm_compute. apply list_elem_of_further, list_elem_of_here.
Defined.

(** ** The keys manager, every call *)

Lemma adoptions_S (m : ptr) (t : gmap lua_key lua_value) (i : Z) (count : nat) :
  adoptions m t i (S count) =
    EvKeysMngrAdoptKey m (key_at t i) 0 :: adoptions m t (i + 1) count.
Proof.
  unfold adoptions. simpl. rewrite Z.add_0_r. f_equal.
  rewrite <- fmap_S_seq, <- list_fmap_compose. apply list_fmap_ext.
  intros _ j _. simpl. do 2 f_equal. lia.
Qed.

Lemma elem_of_adoptions (m : ptr) (t : gmap lua_key lua_value) (i : Z) (count : nat) (e : event) :
  e ∈ adoptions m t i count ->
  exists j : nat, (j < count)%nat /\ e = EvKeysMngrAdoptKey m (key_at t (i + Z.of_nat j)) 0.
Proof.
  unfold adoptions. intros Hin. apply list_elem_of_fmap in Hin as (j & -> & Hj).
  apply elem_of_seq in Hj. exists j. split; [lia|reflexivity].
Qed.

Section KeysManagerRuns.
Context {B : Backend}.

(** The loop of [create_keys_mngr] with the keys it adopted, in order. *)
Lemma adopt_loop_trace (m : ptr) (t : gmap lua_key lua_value) (count : nat) :
  forall (i : Z) (tr : world),
    match for_loop count i (adopt_body m) {| stack := [LTable t]; trace := tr |} with
    | Ok None L =>
        stack L = [LTable t] /\ trace L = tr ++ adoptions m t i count /\
        forall j : nat, (j < count)%nat -> key_at t (i + Z.of_nat j) ≠ NULL
    | Ok (Some n) L =>
        n = 2 /\ stack L = Fail "adopt key failed" /\
        exists (c : nat) (r : Z),
          (c < count)%nat /\ r ≠ 0 /\
          trace L = tr ++ adoptions m t i c ++
                      [EvKeysMngrAdoptKey m (key_at t (i + Z.of_nat c)) r;
                       EvKeysMngrDestroy m] /\
          forall j : nat, (j <= c)%nat -> key_at t (i + Z.of_nat j) ≠ NULL
    | Raise e L =>
        e = ArgError 2 "`xmlSecKey*' expected" /\
        exists c : nat,
          (c < count)%nat /\ key_at t (i + Z.of_nat c) = NULL /\
          trace L = tr ++ adoptions m t i c /\
          forall j : nat, (j < c)%nat -> key_at t (i + Z.of_nat j) ≠ NULL
    | Stuck => False
    end.
Proof.
  induction count as [|count IH]; intros i tr.
  - simpl. split; [done|]. split; [by rewrite app_nil_r|]. intros j Hj. lia.
  - rewrite for_loop_step, adopt_body_run. cbv zeta.
    change (match default LNil (t !! KNum i) with
            | LLightUserdata p | LUserdata p => p
            | _ => NULL
            end) with (key_at t i).
    case_decide as Hkey.
    { split; [done|]. exists 0%nat. rewrite Z.add_0_r, app_nil_r.
      split_and!; try done; [lia|]. intros j Hj. lia. }
    case_decide as Ha.
    { split; [done|]. split; [done|].
      exists 0%nat, (xmlSecCryptoAppDefaultKeysMngrAdoptKey tr m (key_at t i)).
      rewrite Z.add_0_r. split_and!; try done; [lia|].
      intros j Hj. replace j with 0%nat by lia. by rewrite Z.add_0_r. }
    rewrite Ha.
    assert (forall c j : nat,
               (forall j', (j' < c)%nat -> key_at t (i + 1 + Z.of_nat j') ≠ NULL) ->
               (j < S c)%nat -> key_at t (i + Z.of_nat j) ≠ NULL) as Hkeys.
    { intros c [|j] Hc Hj; [by rewrite Z.add_0_r|].
      replace (i + Z.of_nat (S j)) with (i + 1 + Z.of_nat j) by lia. apply Hc. lia. }
    specialize (IH (i + 1) (tr ++ [EvKeysMngrAdoptKey m (key_at t i) 0])).
    destruct (for_loop count (i + 1) (adopt_body m) _) as [[n|] L|e L|]; [| | |done].
    + destruct IH as (-> & Hst & c & r & Hc & Hr & Htr & Hk).
      split; [done|]. split; [done|]. exists (S c), r.
      rewrite adoptions_S, Htr, <- !app_assoc.
      replace (i + Z.of_nat (S c)) with (i + 1 + Z.of_nat c) by lia.
      split_and!; try done; [lia|].
      intros j Hj. apply (Hkeys (S c)); [|lia]. intros j' Hj'. apply Hk. lia.
    + destruct IH as (Hst & Htr & Hk). split; [done|].
      rewrite adoptions_S, Htr, <- app_assoc. split; [done|].
      intros j Hj. by apply (Hkeys count).
    + destruct IH as (-> & c & Hc & Hnull & Htr & Hk). split; [done|].
      exists (S c). rewrite adoptions_S, Htr, <- app_assoc.
      replace (i + Z.of_nat (S c)) with (i + 1 + Z.of_nat c) by lia.
      split_and!; try done; [lia|].
      intros j Hj. apply (Hkeys c); [|lia]. intros j' Hj'. by apply Hk.
Qed.

(** [create_keys_mngr], for every call. *)
Lemma create_keys_mngr_total (args : list lua_value) (w : world) :
  let m := xmlSecKeysMngrCreate w in
  let r0 := xmlSecCryptoAppDefaultKeysMngrInit (w ++ [EvKeysMngrCreate m]) m in
  match lua_call create_keys_mngr args w with
  | Returned rets evs =>
      exists t, arg args 0 = LTable t /\
        ((m = NULL /\ rets = Fail "create keys manager failed" /\ evs = [EvKeysMngrCreate m])
         \/ (m ≠ NULL /\ r0 < 0 /\ rets = Fail "initialize keys manager failed" /\
             evs = [EvKeysMngrCreate m; EvKeysMngrInit m r0; EvKeysMngrDestroy m])
         \/ (m ≠ NULL /\ ¬ r0 < 0 /\ rets = [LLightUserdata m; LNil] /\
             evs = EvKeysMngrCreate m :: EvKeysMngrInit m r0 ::
                     adoptions m t 1 (Z.to_nat (luaH_getn t)) /\
             forall j : nat, (j < Z.to_nat (luaH_getn t))%nat ->
                             key_at t (1 + Z.of_nat j) ≠ NULL)
         \/ (m ≠ NULL /\ ¬ r0 < 0 /\ rets = Fail "adopt key failed" /\
             exists (c : nat) (r : Z),
               (c < Z.to_nat (luaH_getn t))%nat /\ r ≠ 0 /\
               evs = EvKeysMngrCreate m :: EvKeysMngrInit m r0 ::
                       adoptions m t 1 c ++
                       [EvKeysMngrAdoptKey m (key_at t (1 + Z.of_nat c)) r;
                        EvKeysMngrDestroy m] /\
               forall j : nat, (j <= c)%nat -> key_at t (1 + Z.of_nat j) ≠ NULL))
  | Errored e evs =>
      evs = [] \/
      exists t (c : nat),
        arg args 0 = LTable t /\ e = ArgError 2 "`xmlSecKey*' expected" /\
        m ≠ NULL /\ ¬ r0 < 0 /\
        (c < Z.to_nat (luaH_getn t))%nat /\ key_at t (1 + Z.of_nat c) = NULL /\
        evs = EvKeysMngrCreate m :: EvKeysMngrInit m r0 :: adoptions m t 1 c /\
        forall j : nat, (j < c)%nat -> key_at t (1 + Z.of_nat j) ≠ NULL
  | Undefined => False
  end.
Proof.
  intros m r0. unfold create_keys_mngr.
  destruct args as [|a1 rest]; call; [by left|].
  destruct a1; call; try (by left).
  fold m. case_decide as Hm; call.
  { exists t. split; [done|]. left. done. }
  fold r0. case_decide as Hr0; call.
  { exists t. split; [done|]. right. left. done. }
  pose proof (adopt_loop_trace m t (Z.to_nat (luaH_getn t)) 1
                (w ++ [EvKeysMngrCreate m; EvKeysMngrInit m r0])) as Hloop.
  destruct (for_loop _ 1 (adopt_body m) _) as [[n|] [st tr]|e [st tr]|];
    simpl in Hloop; [| | |done].
  - destruct Hloop as (-> & -> & c & r & Hc & Hr & -> & Hk). call.
    exists t. split; [done|]. do 3 right. split_and!; try done. exists c, r. done.
  - destruct Hloop as (-> & -> & Hk). call.
    exists t. split; [done|]. right. right. left. done.
  - destruct Hloop as (-> & c & Hc & Hnull & -> & Hk). call.
    right. exists t, c. done.
Qed.

End KeysManagerRuns.

(** X8. Every call of [create_keys_mngr] that returns has a table as first
    argument and ends in one of four ways: the manager could not be created
    (nothing else is called); it could not be initialised (it is destroyed);
    every key of the list, at the indices 1 to [#keys] in that order, was
    adopted once and the manager is returned with nil; or the first refused
    key ends the adoption with the manager destroyed.  A call that raises has
    called nothing, or has stopped at the first entry that is not a key, with
    the keys before it adopted and the manager not destroyed.  It never
    leaves the model. *)
Theorem create_keys_mngr_every_call `{B : Backend} (args : list lua_value) (w : world) :
  let m := xmlSecKeysMngrCreate w in
  let r0 := xmlSecCryptoAppDefaultKeysMngrInit (w ++ [EvKeysMngrCreate m]) m in
  match lua_call create_keys_mngr args w with
  | Returned rets evs =>
      exists t, arg args 0 = LTable t /\
        ((m = NULL /\ rets = Fail "create keys manager failed" /\ evs = [EvKeysMngrCreate m])
         \/ (m ≠ NULL /\ r0 < 0 /\ rets = Fail "initialize keys manager failed" /\
             evs = [EvKeysMngrCreate m; EvKeysMngrInit m r0; EvKeysMngrDestroy m])
         \/ (m ≠ NULL /\ ¬ r0 < 0 /\ rets = [LLightUserdata m; LNil] /\
             evs = EvKeysMngrCreate m :: EvKeysMngrInit m r0 ::
                     adoptions m t 1 (Z.to_nat (luaH_getn t)) /\
             forall j : nat, (j < Z.to_nat (luaH_getn t))%nat ->
                             key_at t (1 + Z.of_nat j) ≠ NULL)
         \/ (m ≠ NULL /\ ¬ r0 < 0 /\ rets = Fail "adopt key failed" /\
             exists (c : nat) (r : Z),
               (c < Z.to_nat (luaH_getn t))%nat /\ r ≠ 0 /\
               evs = EvKeysMngrCreate m :: EvKeysMngrInit m r0 ::
                       adoptions m t 1 c ++
                       [EvKeysMngrAdoptKey m (key_at t (1 + Z.of_nat c)) r;
                        EvKeysMngrDestroy m] /\
               forall j : nat, (j <= c)%nat -> key_at t (1 + Z.of_nat j) ≠ NULL))
  | Errored e evs =>
      evs = [] \/
      exists t (c : nat),
        arg args 0 = LTable t /\ e = ArgError 2 "`xmlSecKey*' expected" /\
        m ≠ NULL /\ ¬ r0 < 0 /\
        (c < Z.to_nat (luaH_getn t))%nat /\ key_at t (1 + Z.of_nat c) = NULL /\
        evs = EvKeysMngrCreate m :: EvKeysMngrInit m r0 :: adoptions m t 1 c /\
        forall j : nat, (j < c)%nat -> key_at t (1 + Z.of_nat j) ≠ NULL
  | Undefined => False
  end.
Proof. exact (create_keys_mngr_total args w). Qed.

(** X9. Whatever the arguments, every key [create_keys_mngr] hands to xmlsec
    for adoption is not [NULL], and the manager it is adopted into is the one
    the call created, itself not [NULL]. *)
Theorem create_keys_mngr_adopts_real_keys `{B : Backend} (args : list lua_value) (w : world)
    (m k : ptr) (r : Z) :
  EvKeysMngrAdoptKey m k r ∈ events_of (lua_call create_keys_mngr args w) ->
  k ≠ NULL /\ m ≠ NULL /\ m = xmlSecKeysMngrCreate w.
Proof.
  pose proof (create_keys_mngr_total args w) as H. cbv zeta in H.
  destruct (lua_call create_keys_mngr args w) as [rets evs|e evs|]; simpl.
  - destruct H as (t & _ & [(_ & _ & ->)|[(_ & _ & _ & ->)|[(Hm & _ & _ & -> & Hk)|
                                (Hm & _ & _ & c & r' & Hc & _ & -> & Hk)]]]); intros Hin.
    + apply list_elem_of_singleton in Hin. discriminate.
    + repeat (apply elem_of_cons in Hin as [Hin|Hin]; [discriminate|]). inversion Hin.
    + do 2 (apply elem_of_cons in Hin as [Hin|Hin]; [discriminate|]).
      apply elem_of_adoptions in Hin as (j & Hj & [= -> -> ->]). split; [by apply Hk|done].
    + do 2 (apply elem_of_cons in Hin as [Hin|Hin]; [discriminate|]).
      apply elem_of_app in Hin as [Hin|Hin].
      * apply elem_of_adoptions in Hin as (j & Hj & [= -> -> ->]).
        split; [apply Hk; lia|done].
      * apply elem_of_cons in Hin as [[= -> -> ->]|Hin]; [split; [by apply Hk|done]|].
        apply list_elem_of_singleton in Hin. discriminate.
  - destruct H as [->|(t & c & _ & _ & Hm & _ & _ & _ & -> & Hk)]; intros Hin.
    + inversion Hin.
    + do 2 (apply elem_of_cons in Hin as [Hin|Hin]; [discriminate|]).
      apply elem_of_adoptions in Hin as (j & Hj & [= -> -> ->]). split; [by apply Hk|done].
  - intros Hin. inversion Hin.
Qed.

Lemma create_keys_mngr_adopts_real_keys_example :
  5 ≠ NULL /\ 12288 ≠ NULL /\ 12288 = @xmlSecKeysMngrCreate Scenario.backend [].
Proof.
  apply (@create_keys_mngr_adopts_real_keys Scenario.backend
           [LTable ScenarioX.keys_with_null] [] 12288 5 0).
  vm_compute. do 2 apply list_elem_of_further. apply list_elem_of_here.
Defined.

(** X10. When [create_keys_mngr] raises after it has created the manager (an
    entry of the list is nil, not a userdata, or a [NULL] handle), the
    manager is not destroyed: it and the keys adopted so far are left
    behind. *)
Theorem create_keys_mngr_leaks_on_bad_key `{B : Backend} (args : list lua_value) (w : world)
    (e : lua_error) (evs : list event) :
  lua_call create_keys_mngr args w = Errored e evs -> evs ≠ [] ->
  let m := xmlSecKeysMngrCreate w in
  e = ArgError 2 "`xmlSecKey*' expected" /\ m ≠ NULL /\
  head evs = Some (EvKeysMngrCreate m) /\
  forall m', EvKeysMngrDestroy m' ∉ evs.
Proof.
  intros Hcall Hevs. pose proof (create_keys_mngr_total args w) as H. cbv zeta in H.
  rewrite Hcall in H.
  destruct H as [->|(t & c & _ & -> & Hm & _ & _ & _ & -> & _)]; [done|].
  cbv zeta. split_and!; try done.
  intros m' Hin.
  do 2 (apply elem_of_cons in Hin as [Hin|Hin]; [discriminate|]).
  apply elem_of_adoptions in Hin as (j & _ & Hj). discriminate.
Qed.

Lemma create_keys_mngr_leaks_on_bad_key_example :
  let m := @xmlSecKeysMngrCreate Scenario.backend [] in
  ArgError 2 "`xmlSecKey*' expected" = ArgError 2 "`xmlSecKey*' expected" /\ m ≠ NULL /\
  head [EvKeysMngrCreate 12288; EvKeysMngrInit 12288 0; EvKeysMngrAdoptKey 12288 5 0] =
    Some (EvKeysMngrCreate m) /\
  forall m', EvKeysMngrDestroy m' ∉
               [EvKeysMngrCreate 12288; EvKeysMngrInit 12288 0; EvKeysMngrAdoptKey 12288 5 0].
Proof.
  apply (@create_keys_mngr_leaks_on_bad_key Scenario.backend
           [LTable ScenarioX.keys_with_null] []).
  - vm_compute. reflexivity.
  - discriminate.
Defined.

(** X11. When [create_keys_mngr] returns: a manager it returns is the one it
    created, is not [NULL] and was not destroyed; and a manager it created
    but does not return (the first result is nil) was destroyed, as the last
    thing the call did. *)
Theorem create_keys_mngr_returns_or_destroys `{B : Backend} (args : list lua_value) (w : world)
    (rets : list lua_value) (evs : list event) :
  lua_call create_keys_mngr args w = Returned rets evs ->
  let m := xmlSecKeysMngrCreate w in
  (forall p, rets !! 0%nat = Some (LLightUserdata p) ->
             p = m /\ m ≠ NULL /\ EvKeysMngrDestroy m ∉ evs)
  /\ (rets !! 0%nat = Some LNil -> m ≠ NULL -> last evs = Some (EvKeysMngrDestroy m)).
Proof.
  intros Hcall. pose proof (create_keys_mngr_total args w) as H. cbv zeta in H.
  rewrite Hcall in H. cbv zeta.
  destruct H as (t & _ & [(Hm & -> & ->)|[(Hm & _ & -> & ->)|[(Hm & _ & -> & -> & Hk)|
                              (Hm & _ & -> & c & r' & Hc & _ & -> & Hk)]]]).
  - split; [intros p [=]|]. intros _ Hne. done.
  - split; [intros p [=]|]. intros _ _. reflexivity.
  - split; [|intros [=]]. intros p [= <-]. split_and!; try done.
    intros Hin. do 2 (apply elem_of_cons in Hin as [Hin|Hin]; [discriminate|]).
    apply elem_of_adoptions in Hin as (j & _ & Hj). discriminate.
  - split; [intros p [=]|]. intros _ _.
    match goal with
    | |- last (?a :: ?b :: ?l ++ [?x; ?y]) = _ =>
        replace (a :: b :: l ++ [x; y]) with ((a :: b :: l ++ [x]) ++ [y])
          by (simpl; rewrite <- app_assoc; reflexivity)
    end.
    apply last_snoc.
Qed.

Lemma create_keys_mngr_returns_or_destroys_example :
  let m := @xmlSecKeysMngrCreate Scenario.backend [] in
  (forall p, [LLightUserdata 12288; LNil] !! 0%nat = Some (LLightUserdata p) ->
             p = m /\ m ≠ NULL /\
             EvKeysMngrDestroy m ∉ [EvKeysMngrCreate 12288; EvKeysMngrInit 12288 0;
                                    EvKeysMngrAdoptKey 12288 5 0; EvKeysMngrAdoptKey 12288 6 0])
  /\ ([LLightUserdata 12288; LNil] !! 0%nat = Some LNil -> m ≠ NULL ->
      last [EvKeysMngrCreate 12288; EvKeysMngrInit 12288 0;
            EvKeysMngrAdoptKey 12288 5 0; EvKeysMngrAdoptKey 12288 6 0] =
        Some (EvKeysMngrDestroy m)).
Proof.
  apply (@create_keys_mngr_returns_or_destroys Scenario.backend [LTable ScenarioX.good_keys] []).
  vm_compute. reflexivity.
Defined.

(** ** Attributes, every call *)

Lemma table_set_lookup_Some (k k' : lua_key) (v v' : lua_value) (t : gmap lua_key lua_value) :
  table_set k v t !! k' = Some v' ->
  (k = k' /\ v' = v /\ v ≠ LNil) \/ (k ≠ k' /\ t !! k' = Some v').
Proof.
  unfold table_set. destruct (decide (k = k')) as [<-|Hne].
  - destruct v; rewrite ?lookup_delete_eq, ?lookup_insert_eq; intros [= <-]; left; done.
  - destruct v; rewrite ?lookup_delete_ne, ?lookup_insert_ne by done; intros H; right; done.
Qed.

(** A filled list holds, beside what was there, only the values that are not
    [NULL], each at its index. *)
Lemma values_from_lookup_Some (vs : list (option string)) :
  forall (j0 : Z) (t : gmap lua_key lua_value) (k : lua_key) (v : lua_value),
    values_from j0 vs t !! k = Some v ->
    t !! k = Some v \/
    exists (j : nat) (s : string),
      k = KNum (j0 + Z.of_nat j + 1) /\ vs !! j = Some (Some s) /\ v = LString s.
Proof.
  induction vs as [|v0 vs IH]; intros j0 t k v Hk; simpl in Hk; [by left|].
  apply IH in Hk as [Hk|(j & s & -> & Hj & ->)].
  - apply table_set_lookup_Some in Hk as [(<- & -> & Hnil)|(_ & Hk)]; [|by left].
    right. destruct v0 as [s|]; [|done]. exists 0%nat, s.
    split_and!; try done. f_equal. lia.
  - right. exists (S j), s. split_and!; try done. f_equal. lia.
Qed.

(** The attribute table holds, beside what was there, only values stored
    for an attribute, under its name. *)
Lemma store_attr_lookup_Some (l : list saml_attr_t) :
  forall (T : gmap lua_key lua_value) (k : lua_key) (v : lua_value),
    fold_left store_attr l T !! k = Some v ->
    T !! k = Some v \/
    exists (a : saml_attr_t) (n : string),
      a ∈ l /\ name a = Some n /\ k = KStr n /\ v = attr_value a /\ v ≠ LNil.
Proof.
  induction l as [|b l IH] using rev_ind; intros T k v Hk; [by left|].
  rewrite fold_left_app in Hk. simpl in Hk. unfold store_attr at 1 in Hk.
  destruct (name b) as [nb|] eqn:Hnb.
  - apply table_set_lookup_Some in Hk as [(<- & -> & Hnil)|(_ & Hk)].
    + right. exists b, nb. split_and!; try done. apply elem_of_app. right.
      apply list_elem_of_here.
    + apply IH in Hk as [Hk|(a & n & Ha & Hrest)]; [by left|].
      right. exists a, n. split; [|done]. apply elem_of_app. by left.
  - apply IH in Hk as [Hk|(a & n & Ha & Hrest)]; [by left|].
    right. exists a, n. split; [|done]. apply elem_of_app. by left.
Qed.


(** X13. The table [attrs] returns has no entry but for attributes: every
    key is the name of an attribute of the array, and the value under it is
    the value of an attribute of that name, never nil.  So attributes without
    a name leave no trace, and an empty array gives an empty table. *)
Theorem attrs_entries_are_attributes `{B : Backend} (doc : ptr) (rest : list lua_value)
    (w : world) :
  doc ≠ NULL -> ¬ (saml_doc_attrs w doc).1 < 0 ->
  exists T evs,
    lua_call attrs (LLightUserdata doc :: rest) w = Returned [LTable T] evs
    /\ (forall k v, T !! k = Some v ->
          exists a n, a ∈ (saml_doc_attrs w doc).2 /\ name a = Some n /\ k = KStr n /\
                      v = attr_value a /\ v ≠ LNil /\ values a ≠ [])
    /\ ((saml_doc_attrs w doc).2 = [] -> T = ∅).
Proof.
  intros Hdoc Hres. do 2 eexists. split; [apply attrs_run; done|]. split.
  - intros k v Hk. apply store_attr_lookup_Some in Hk as [Hk|(a & n & Ha & Hn & -> & -> & Hnil)].
    { rewrite lookup_empty in Hk. done. }
    exists a, n. split_and!; try done.
    intros Hvs. apply Hnil. unfold attr_value, num_values. rewrite Hvs. reflexivity.
  - intros ->. reflexivity.
Qed.

Lemma attrs_entries_are_attributes_example :
  exists T evs,
    lua_call (@attrs Scenario.backend) [LLightUserdata 4096] [] = Returned [LTable T] evs
    /\ (forall k v, T !! k = Some v ->
          exists a n, a ∈ (@saml_doc_attrs Scenario.backend [] 4096).2 /\ name a = Some n /\
                      k = KStr n /\ v = attr_value a /\ v ≠ LNil /\ values a ≠ [])
    /\ ((@saml_doc_attrs Scenario.backend [] 4096).2 = [] -> T = ∅).
Proof.
  apply (@attrs_entries_are_attributes Scenario.backend 4096 [] []);
    [discriminate | vm_compute; discriminate].
Defined.

(** X14. The list [attrs] builds for an attribute with two or more values
    (the last attribute of its name) has no entry but at the indices 1 to
    the number of values: every key is such an index, and the value under it
    is the string at that position of the array. *)
Theorem attrs_list_has_only_indices `{B : Backend} (doc : ptr) (rest : list lua_value)
    (w : world) (i : nat) (a : saml_attr_t) (n : string) :
  doc ≠ NULL -> ¬ (saml_doc_attrs w doc).1 < 0 ->
  (saml_doc_attrs w doc).2 !! i = Some a -> name a = Some n ->
  (forall i' a', (i < i')%nat -> (saml_doc_attrs w doc).2 !! i' = Some a' ->
                 name a' ≠ Some n) ->
  (2 <= length (values a))%nat ->
  exists T evs t,
    lua_call attrs (LLightUserdata doc :: rest) w = Returned [LTable T] evs
    /\ T !! KStr n = Some (LTable t)
    /\ forall k v, t !! k = Some v ->
         exists (j : nat) (s : string),
           k = KNum (Z.of_nat j + 1) /\ (j < length (values a))%nat /\
           values a !! j = Some (Some s) /\ v = LString s.
Proof.
  intros Hdoc Hres Hi Hn Hlast Hlen. do 3 eexists. split; [apply attrs_run; done|].
  pose proof (store_attr_last _ ∅ i a n Hi Hn Hlast) as Hget.
  unfold attr_value, num_values in Hget.
  rewrite decide_False in Hget by lia. rewrite decide_False in Hget by lia.
  unfold table_get in Hget.
  destruct (fold_left store_attr _ ∅ !! KStr n) as [v|] eqn:Hv; simpl in Hget; [|done].
  subst v. split; [reflexivity|].
  intros k v Hk. apply values_from_lookup_Some in Hk as [Hk|(j & s & -> & Hj & ->)].
  { rewrite lookup_empty in Hk. done. }
  exists j, s. split_and!; try done. by apply lookup_lt_Some in Hj.
Qed.

Lemma attrs_list_has_only_indices_example :
  exists T evs t,
    lua_call (@attrs Scenario.backend) [LLightUserdata 4096] [] = Returned [LTable T] evs
    /\ T !! KStr "groups" = Some (LTable t)
    /\ forall k v, t !! k = Some v ->
         exists (j : nat) (s : string),
           k = KNum (Z.of_nat j + 1) /\ (j < 2)%nat /\
           [Some "x"; Some "y"] !! j = Some (Some s) /\ v = LString s.
Proof.
  apply (@attrs_list_has_only_indices Scenario.backend 4096 [] [] 1%nat
           {| name := Some "groups"; values := [Some "x"; Some "y"] |} "groups");
    [discriminate | vm_compute; discriminate | reflexivity | reflexivity | | simpl; lia].
  intros i' a' Hi' Ha'.
  destruct i' as [|[|[|i']]]; try lia; [|discriminate].
  injection Ha' as <-. discriminate.
Defined.

(** ** Documents and keys *)

(** X15. Every call of [serialize]: without a document (nil, or a [NULL]
    handle) it raises before libxml2 is asked; otherwise it returns the text
    libxml2 dumps, as one string, and frees the dump buffer once.  It never
    leaves the model. *)
Theorem serialize_every_call `{B : Backend} (args : list lua_value) (w : world) :
  let doc := to_userdata (arg args 0) in
  match lua_call serialize args w with
  | Returned rets evs =>
      doc ≠ NULL /\ rets = [LString (xmlDocDumpMemory w doc)] /\
      evs = [EvXmlDocDumpMemory doc (xmlDocDumpMemory w doc); EvXmlFree]
  | Errored e evs => doc = NULL /\ e = ArgError 1 "`xmlDoc*' expected" /\ evs = []
  | Undefined => False
  end.
Proof.
  unfold serialize, arg.
  destruct args as [|a1 rest]; call; [done|].
  destruct a1; call; try done.
  all: case_bool_decide as Hdoc; call; done.
Qed.

Section UncheckedStack.
Implicit Types (below st free : list lua_value) (fn v : lua_value) (w : world).

(** [set_nils] with room for the writes: the [n] slots from [L->top] on
    become nil. *)
Lemma set_nils_room (n : nat) (F : Unchecked.frame) :
  0 <= Unchecked.top F ->
  Unchecked.top F + Z.of_nat n <= Z.of_nat (length (Unchecked.slots F)) ->
  Unchecked.set_nils n F =
    Some {| Unchecked.slots :=
              take (Z.to_nat (Unchecked.top F)) (Unchecked.slots F) ++ replicate n LNil ++
              drop (Z.to_nat (Unchecked.top F) + n) (Unchecked.slots F);
            Unchecked.base := Unchecked.base F;
            Unchecked.top := Unchecked.top F + Z.of_nat n;
            Unchecked.calls := Unchecked.calls F |}.
Proof.
  revert F. induction n as [|n IH]; intros F H0 Hn.
  - simpl. rewrite Nat.add_0_r, take_drop, Z.add_0_r. by destruct F.
  - cbn [Unchecked.set_nils]. rewrite decide_True by lia.
    rewrite IH; cbn [Unchecked.slots Unchecked.base Unchecked.top Unchecked.calls];
      [|lia|rewrite length_insert; lia].
    f_equal. f_equal; [|lia].
    replace (Z.to_nat (Unchecked.top F + 1)) with (S (Z.to_nat (Unchecked.top F))) by lia.
    rewrite take_S_r with (x := LNil).
    2:{ apply list_lookup_insert_eq. lia. }
    rewrite take_insert_ge by lia.
    rewrite drop_insert_lt by lia.
    rewrite <- app_assoc. simpl.
    do 4 f_equal. lia.
Qed.

(** Where the request is within the frame, as the API asks, the two models
    of [lua_settop] agree: the frame is cut, or filled with nil, the same
    way, and the slots under it are not written. *)
Lemma lua_settop_within_frame below fn st free (idx : Z) w (L : lua_State) :
  lua_settop idx {| stack := st; trace := w |} = Ok tt L ->
  idx <= Z.of_nat (length st) + Z.of_nat (length free) ->
  exists F,
    Unchecked.lua_settop idx (Unchecked.enter below fn st free w) = Unchecked.Done tt F /\
    Unchecked.frame_stack F = stack L /\ Unchecked.calls F = trace L /\
    Unchecked.base F = Z.of_nat (length below) + 1 /\
    take (length below + 1) (Unchecked.slots F) = below ++ [fn].
Proof.
  intros Hset Hroom.
  unfold lua_settop, mbind, M_bind, get_stack, put_stack, stuck in Hset. simpl in Hset.
  unfold Unchecked.lua_settop, Unchecked.enter.
  cbn [Unchecked.slots Unchecked.base Unchecked.top Unchecked.calls].
  rewrite (cons_middle fn), app_assoc.
  assert (length (below ++ [fn]) = (length below + 1)%nat) as Hpre
    by (rewrite length_app; reflexivity).
  replace (Z.of_nat (length below) + 1) with (Z.of_nat (length (below ++ [fn]))) by lia.
  rewrite <- Hpre. clear Hpre. generalize (below ++ [fn]). clear below fn. intros pre.
  destruct (decide (0 <= idx)) as [Hidx|Hidx].
  - injection Hset as <-.
    rewrite set_nils_room;
      cbn [Unchecked.slots Unchecked.base Unchecked.top Unchecked.calls];
      [|lia|rewrite !length_app; lia].
    eexists. split; [reflexivity|]. unfold Unchecked.frame_stack.
    cbn [Unchecked.slots Unchecked.base Unchecked.top Unchecked.calls stack trace].
    replace (Z.to_nat (Z.of_nat (length pre) + idx - Z.of_nat (length pre)))
      with (Z.to_nat idx) by lia.
    replace (Z.to_nat (Z.of_nat (length pre) + idx -
                       (Z.of_nat (length pre) + Z.of_nat (length st))))
      with (Z.to_nat idx - length st)%nat by lia.
    replace (Z.to_nat (Z.of_nat (length pre) + Z.of_nat (length st)))
      with (length (pre ++ st)) by (rewrite length_app; lia).
    rewrite Nat2Z.id, !app_assoc, take_app_length, drop_app_add, <- !app_assoc.
    split_and!; try done.
    + rewrite drop_app_length. rewrite !take_app, length_replicate.
      rewrite take_replicate, Nat.min_id.
      rewrite Nat.sub_diag. simpl. rewrite app_nil_r. reflexivity.
    + apply take_app_length.
  - destruct (decide (0 <= Z.of_nat (length st) + idx + 1)); [|discriminate].
    injection Hset as <-.
    eexists. split; [reflexivity|]. unfold Unchecked.frame_stack.
    cbn [Unchecked.slots Unchecked.base Unchecked.top Unchecked.calls stack trace].
    split_and!; try done.
    + rewrite Nat2Z.id, drop_app_length.
      rewrite take_app_le by lia. f_equal. lia.
    + apply take_app_length.
Qed.

(** [lua_settop(L, 1)] on entry: the first argument is kept, or nil is
    written into the first free slot when there is none. *)
Lemma lua_settop_1_enter below fn (args : list lua_value) free w :
  free ≠ [] ->
  Unchecked.lua_settop 1 (Unchecked.enter below fn args free w) =
    Unchecked.Done tt (Unchecked.one_slot below fn (arg args 0) (drop 1 (args ++ free)) w).
Proof.
  intros Hfree. unfold Unchecked.lua_settop, Unchecked.enter, Unchecked.one_slot, arg. simpl.
  destruct args as [|a1 rest]; simpl.
  - destruct free as [|v free]; [done|]. simpl.
    match goal with
    | |- context [Unchecked.set_nils ?n _] => replace n with 1%nat by lia
    end.
    unfold Unchecked.set_nils.
    cbn [Unchecked.slots Unchecked.base Unchecked.top Unchecked.calls].
    rewrite decide_True.
    2:{ rewrite length_app. simpl. lia. }
    do 2 f_equal.
    match goal with
    | |- context [<[?n := _]> _] => replace n with (length below + 1)%nat by lia
    end.
    rewrite insert_app_r_alt by lia.
    replace (length below + 1 - length below)%nat with 1%nat by lia. reflexivity.
  - match goal with
    | |- context [Unchecked.set_nils ?n _] => replace n with 0%nat by lia
    end.
    simpl. rewrite drop_0. reflexivity.
Qed.

Lemma lua_touserdata_1_one_slot below fn v (above : list lua_value) w :
  Unchecked.lua_touserdata 1 (Unchecked.one_slot below fn v above w) =
    Unchecked.Done (to_userdata v) (Unchecked.one_slot below fn v above w).
Proof.
  unfold Unchecked.lua_touserdata, Unchecked.index2adr, Unchecked.cell, Unchecked.one_slot,
    mbind, Unchecked.U_bind.
  simpl.
  rewrite decide_False by lia. rewrite decide_True by lia.
  match goal with
  | |- context [_ !! ?n] => replace n with (length below + 1)%nat by lia
  end.
  rewrite lookup_app_r by lia.
  replace (length below + 1 - length below)%nat with 1%nat by lia. reflexivity.
Qed.

End UncheckedStack.

(** X16. [free_doc] on the interpreter's stack, without API checks, for
    every frame it can be entered with.  Without a document (no argument,
    nil, or a [NULL] handle) it raises on argument 1 and frees nothing.  With
    a document it frees it exactly once and returns no value: the first
    [lua_pop(L, 1)] empties the frame, and the second, after [xmlFreeDoc],
    leaves [L->top] one slot below [L->base], on the slot of the function
    itself.  Nothing is written to the stack array, and no slot outside it
    is touched. *)
Theorem free_doc_frees_once (below : list lua_value) (fn : lua_value)
    (args free : list lua_value) (w : world) :
  Unchecked.LUA_MINSTACK <= Z.of_nat (length free) ->
  let doc := to_userdata (arg args 0) in
  let F0 := Unchecked.enter below fn args free w in
  match Unchecked.free_doc F0 with
  | Unchecked.Done n F =>
      doc ≠ NULL /\ n = 0 /\ Unchecked.results F n = [] /\
      Unchecked.calls F = w ++ [EvXmlFreeDoc doc] /\
      Unchecked.slots F = Unchecked.slots F0 /\
      Unchecked.base F = Unchecked.base F0 /\
      Unchecked.top F = Unchecked.base F0 - 1
  | Unchecked.Thrown e F =>
      doc = NULL /\ e = ArgError 1 "`xmlDoc*' expected" /\ Unchecked.calls F = w
  | Unchecked.Fault => False
  end.
Proof.
  intros Hfree doc F0. subst doc F0.
  assert (free ≠ []) as Hne.
  { intros ->. unfold Unchecked.LUA_MINSTACK in Hfree. simpl in Hfree. lia. }
  unfold Unchecked.free_doc, mbind, Unchecked.U_bind.
  rewrite lua_settop_1_enter by done.
  rewrite lua_touserdata_1_one_slot.
  unfold Unchecked.luaL_argcheck.
  case_bool_decide as Hdoc.
  - simpl. split_and!; try done; try lia.
    unfold arg in *. destruct args as [|a1 rest]; [done|].
    simpl. rewrite drop_0. reflexivity.
  - simpl. split_and!; done.
Qed.

Lemma free_doc_frees_once_example :
  match Unchecked.free_doc
          (Unchecked.enter [LString "caller"] (LFunction 1) [LLightUserdata 4096]
             (replicate 20 LNil) []) with
  | Unchecked.Done n F =>
      n = 0 /\ Unchecked.calls F = [EvXmlFreeDoc 4096] /\
      Unchecked.base F = 2 /\ Unchecked.top F = 1
  | _ => False
  end.
Proof.
  pose proof (free_doc_frees_once [LString "caller"] (LFunction 1) [LLightUserdata 4096]
                (replicate 20 LNil) [] ltac:(vm_compute; discriminate)) as H.
  vm_compute in H. vm_compute. tauto.
Defined.

(** X17. The three loaders that check what xmlsec returns: [load_key],
    [load_key_file] and [load_cert_file] return nil when xmlsec returns
    [NULL] and the key as a light userdata otherwise.  [load_key] and
    [load_key_file] ask for the PEM key format, [load_cert_file] for the PEM
    certificate format; the two file loaders pass the name as a C string. *)
Theorem checked_loaders `{B : Backend} (s : string) (rest : list lua_value) (w : world) :
  (let key := xmlSecCryptoAppKeyLoadMemory w s xmlSecKeyDataFormatPem in
   lua_call load_key (LString s :: rest) w =
     Returned [if decide (key = NULL) then LNil else LLightUserdata key]
              [EvKeyLoadMemory s xmlSecKeyDataFormatPem key])
  /\ (let key := xmlSecCryptoAppKeyLoad w (c_str s) xmlSecKeyDataFormatPem in
      lua_call load_key_file (LString s :: rest) w =
        Returned [if decide (key = NULL) then LNil else LLightUserdata key]
                 [EvKeyLoad (c_str s) xmlSecKeyDataFormatPem key])
  /\ (let cert := xmlSecCryptoAppKeyLoad w (c_str s) xmlSecKeyDataFormatCertPem in
      lua_call load_cert_file (LString s :: rest) w =
        Returned [if decide (cert = NULL) then LNil else LLightUserdata cert]
                 [EvKeyLoad (c_str s) xmlSecKeyDataFormatCertPem cert]).
Proof.
  split_and!; cbv zeta.
  - unfold load_key. call. case_decide; call; reflexivity.
  - unfold load_key_file. call. case_decide; call; reflexivity.
  - unfold load_cert_file. call. case_decide; call; reflexivity.
Qed.

(** X18. [parse], [parse_file], [load_key], [load_key_file],
    [load_cert_file] and [find_transform_by_href], over every call.  Each
    returns exactly when its first argument is a string or a number, and
    then it has passed that string to its callee ([parse] and [load_key] the
    whole Lua string, the others the C string), once, and returns what the
    callee gave: nil for [NULL], the pointer as a light userdata otherwise,
    so never a [NULL] handle.  Given anything else each raises the type error
    on argument 1 before any callee is asked.  None leaves the model.  The
    one event of [find_transform_by_href] stands for both calls of its
    line: the fetch of xmlsec's list of transforms and the search in it. *)
Theorem handles_are_never_null `{B : Backend} :
  hands_out_handle parse xmlReadMemory EvXmlReadMemory
  /\ hands_out_handle parse_file
       (fun w s => xmlReadFile w (c_str s)) (fun s => EvXmlReadFile (c_str s))
  /\ hands_out_handle load_key
       (fun w s => xmlSecCryptoAppKeyLoadMemory w s xmlSecKeyDataFormatPem)
       (fun s => EvKeyLoadMemory s xmlSecKeyDataFormatPem)
  /\ hands_out_handle load_key_file
       (fun w s => xmlSecCryptoAppKeyLoad w (c_str s) xmlSecKeyDataFormatPem)
       (fun s => EvKeyLoad (c_str s) xmlSecKeyDataFormatPem)
  /\ hands_out_handle load_cert_file
       (fun w s => xmlSecCryptoAppKeyLoad w (c_str s) xmlSecKeyDataFormatCertPem)
       (fun s => EvKeyLoad (c_str s) xmlSecKeyDataFormatCertPem)
  /\ hands_out_handle find_transform_by_href
       (fun w s => xmlSecTransformIdListFindByHref (xmlSecTransformIdsGet w) (c_str s))
       (fun s => EvTransformFindByHref (c_str s)).
Proof.
  split_and!; intros args w.
  all: unfold parse, parse_file, load_key, load_key_file, load_cert_file,
         find_transform_by_href, arg.
  all: destruct args as [|a1 rest]; call; [done|].
  all: destruct a1; call; try done.
  all: case_decide as Hp; call; eexists; (split; [reflexivity|]); (split; [reflexivity|]).
  all: rewrite ?decide_True by done; rewrite ?decide_False by done.
  all: (split; [reflexivity|]); apply Forall_singleton.
  all: try (left; reflexivity).
  all: right; eexists; split; [exact Hp|reflexivity].
Qed.

(** X19. A transform id that is nil (what [find_transform_by_href] returns
    for a URI it does not know), or any value that is not a userdata, or a
    [NULL] handle, is refused by [sign_doc], [sign_xml] and [verify_binary]
    with an error on argument 2, before any callee is asked. *)
Theorem null_transform_is_rejected `{B : Backend} (key : ptr) (v : lua_value)
    (rest : list lua_value) (w : world) :
  key ≠ NULL -> to_userdata v = NULL ->
  lua_call sign_doc (LLightUserdata key :: v :: rest) w =
    Errored (ArgError 2 "`xmlSecTransformId` expected") []
  /\ lua_call sign_xml (LLightUserdata key :: v :: rest) w =
    Errored (ArgError 2 "`xmlSecTransformId` expected") []
  /\ lua_call verify_binary (LLightUserdata key :: v :: rest) w =
    Errored (ArgError 2 "`xmlSecTransformId` expected") [].
Proof.
  intros Hk Hv. unfold sign_doc, sign_xml, verify_binary.
  split_and!.
  all: destruct rest as [|a3 [|a4 rest]]; call.
  all: rewrite bool_decide_eq_true_2 by done; call.
  all: destruct v; simpl in Hv; subst; call; reflexivity.
Qed.

Lemma null_transform_is_rejected_example :
  lua_call (@sign_doc Scenario.backend) [LLightUserdata 8192; LNil; LLightUserdata 4096] [] =
    Errored (ArgError 2 "`xmlSecTransformId` expected") []
  /\ lua_call (@sign_xml Scenario.backend) [LLightUserdata 8192; LNil; LLightUserdata 4096] [] =
    Errored (ArgError 2 "`xmlSecTransformId` expected") []
  /\ lua_call (@verify_binary Scenario.backend)
       [LLightUserdata 8192; LNil; LLightUserdata 4096] [] =
    Errored (ArgError 2 "`xmlSecTransformId` expected") [].
Proof.
  exact (@null_transform_is_rejected Scenario.backend 8192 LNil [LLightUserdata 4096] []
           ltac:(discriminate) ltac:(reflexivity)).
Defined.

(** X20. The handle [load_cert] returns for bytes that are not a certificate
    holds [NULL]; given as the key or certificate to [verify_binary],
    [sign_doc] or [sign_xml] it is refused with an error on argument 1,
    before any callee is asked: the [NULL] never reaches the engine through
    them. *)
Theorem null_certificate_is_rejected `{B : Backend} (s : string) (w : world)
    (cert : lua_value) (evs : list event) (rest : list lua_value) (w' : world) :
  xmlSecCryptoAppKeyLoadMemory w s xmlSecKeyDataFormatCertPem = NULL ->
  lua_call load_cert [LString s] w = Returned [cert] evs ->
  lua_call verify_binary (cert :: rest) w' = Errored (ArgError 1 "`xmlSecKey*' expected") []
  /\ lua_call sign_doc (cert :: rest) w' = Errored (ArgError 1 "`xmlSecKey*' expected") []
  /\ lua_call sign_xml (cert :: rest) w' = Errored (ArgError 1 "`xmlSecKey*' expected") [].
Proof.
  intros Hnull Hcall.
  assert (cert = LLightUserdata NULL) as ->.
  { revert Hcall. unfold load_cert. call. rewrite Hnull. intros [= <- _]. reflexivity. }
  unfold verify_binary, sign_doc, sign_xml. split_and!.
  all: destruct rest as [|a2 [|a3 [|a4 rest]]]; call; reflexivity.
Qed.

Lemma null_certificate_is_rejected_example :
  lua_call (@verify_binary Scenario.backend)
    [LLightUserdata NULL; LLightUserdata 16392; LString "data"; LString "signature"] [] =
    Errored (ArgError 1 "`xmlSecKey*' expected") []
  /\ lua_call (@sign_doc Scenario.backend)
    [LLightUserdata NULL; LLightUserdata 16392; LString "data"; LString "signature"] [] =
    Errored (ArgError 1 "`xmlSecKey*' expected") []
  /\ lua_call (@sign_xml Scenario.backend)
    [LLightUserdata NULL; LLightUserdata 16392; LString "data"; LString "signature"] [] =
    Errored (ArgError 1 "`xmlSecKey*' expected") [].
Proof.
  apply (@null_certificate_is_rejected Scenario.backend "not a certificate" []
           (LLightUserdata NULL)
           [EvKeyLoadMemory "not a certificate" xmlSecKeyDataFormatCertPem NULL]).
  - reflexivity.
  - vm_compute. reflexivity.
Defined.

(** X21. Whatever the arguments, [verify_doc] and [verify_binary] call the
    verification engine at most once, and when they do, the manager and the
    document, or the certificate and the transform id, are not [NULL]. *)
Theorem verify_engine_arguments `{B : Backend} (args : list lua_value) (w : world) :
  (forall e, e ∈ events_of (lua_call verify_doc args w) ->
     exists mngr doc id,
       mngr ≠ NULL /\ doc ≠ NULL /\
       events_of (lua_call verify_doc args w) =
         [EvSamlVerifyDoc mngr doc id (saml_verify_doc w mngr doc id)])
  /\ (forall e, e ∈ events_of (lua_call verify_binary args w) ->
        exists cert tid data sig,
          cert ≠ NULL /\ tid ≠ NULL /\
          events_of (lua_call verify_binary args w) =
            [EvSamlVerifyBinary cert tid data sig (saml_verify_binary w cert tid data sig)]).
Proof.
  split.
  - pose proof (verify_doc_run args w) as H.
    destruct (lua_call verify_doc args w) as [rets evs|e' evs|]; simpl; intros e Hin.
    + destruct H as (mngr & doc & id & -> & Hm & Hd & _). by exists mngr, doc, id.
    + subst evs. inversion Hin.
    + inversion Hin.
  - pose proof (verify_binary_run args w) as H.
    destruct (lua_call verify_binary args w) as [rets evs|e' evs|]; simpl; intros e Hin.
    + destruct H as (cert & tid & data & sig & -> & Hc & Ht & _). by exists cert, tid, data, sig.
    + subst evs. inversion Hin.
    + inversion Hin.
Qed.

(** ** The functions over the other callees *)

Ltac xexec :=
  cbv beta iota zeta delta
    [mbind XM_bind XM_ret api xextern xextern_void peek xstack xtrace lua_toboolean
     M_bind mret M_ret fmap M_fmap raise stuck get_stack put_stack extern extern_void
     lua_settop lua_pop lua_type lua_isnil lua_isnone lua_isnoneornil lua_touserdata
     lua_tolstring push lua_pushnil lua_pushboolean lua_pushinteger lua_pushlightuserdata
     lua_pushlstring lua_pushstring lua_newtable lua_getfield lua_rawgeti lua_settable
     lua_objlen luaL_argerror luaL_typerror luaL_argcheck luaL_checktype luaL_checklstring
     index2adr slot stack trace option_bind compose];
  simpl.

Ltac xcall := unfold xcall; xexec; rewrite ?app_nil_r; events; simpl.

(** X22. Every call of [init]: the first argument has to be a table and its
    [rock_dir] a string (or a number), or an error is raised on argument 1
    or 3 before the engine is called; otherwise the engine is initialised
    once, with [debug] read as a boolean (nil and false are false, anything
    else is true) and [rock_dir] as a C string, and the one result is nil on
    success and "saml initialization failed" on a negative status.  It never
    leaves the model. *)
Theorem init_every_call `{B : Backend} `{E : Engine} (args : list lua_value) (w : xworld) :
  match xcall init args w with
  | XReturned rets evs =>
      exists t dir,
        arg args 0 = LTable t /\
        to_lstring (default LNil (t !! KStr "rock_dir")) = Some dir /\
        let debug := truthy (default LNil (t !! KStr "debug")) in
        let res := saml_init w debug (c_str dir) in
        evs = [inr (EvSamlInit debug (c_str dir) res)] /\
        rets = [if decide (res < 0) then LString "saml initialization failed" else LNil]
  | XErrored e evs =>
      evs = [] /\
      (((forall t, arg args 0 ≠ LTable t) /\ exists msg, e = ArgError 1 msg) \/
       (exists t, arg args 0 = LTable t /\
                  to_lstring (default LNil (t !! KStr "rock_dir")) = None /\
                  exists msg, e = ArgError 3 msg))
  | XUndefined => False
  end.
Proof.
  unfold init, arg.
  destruct args as [|a1 rest]; xcall; [split; [done|]; left; split; [done|by eexists]|].
  destruct a1; xcall; try (split; [done|]; left; split; [done|by eexists]).
  destruct (t !! KStr "rock_dir") as [[]|] eqn:Hdir; xcall.
  all: try (split; [done|]; right; exists t; rewrite Hdir; split_and!; try done; by eexists).
  all: destruct (t !! KStr "debug") as [[|[]| | | | | | |]|] eqn:Hdebug; xcall.
  all: case_decide; xcall; exists t; eexists; rewrite Hdir, Hdebug; simpl.
  all: split_and!; try reflexivity.
  all: try (rewrite decide_True by done; reflexivity).
  all: try (rewrite decide_False by done; reflexivity).
Qed.

(** X23. [init] called with an options table that has no [rock_dir] (as in
    [saml.init({ debug = true })]) raises "string expected, got nil" on
    argument 3, and the engine is not initialised. *)
Theorem init_requires_rock_dir `{B : Backend} `{E : Engine} (t : gmap lua_key lua_value)
    (rest : list lua_value) (w : xworld) :
  t !! KStr "rock_dir" = None ->
  xcall init (LTable t :: rest) w = XErrored (ArgError 3 "string expected, got nil") [].
Proof.
  intros Hdir. unfold init. xcall. rewrite Hdir.
  destruct (t !! KStr "debug"); xcall; reflexivity.
Qed.

Lemma init_requires_rock_dir_example :
  xcall (@init Scenario.backend ScenarioX.engine)
    [LTable ({[ KStr "debug" := LBoolean true ]} : gmap lua_key lua_value)] [] =
    XErrored (ArgError 3 "string expected, got nil") [].
Proof.
  apply (@init_requires_rock_dir Scenario.backend ScenarioX.engine).
  vm_compute. reflexivity.
Defined.


(** X25. Every call of [validate_doc]: without a document it raises before
    the validator is asked; otherwise the validator is asked once and its
    result is returned as a boolean, false exactly for 0.  No error string
    is ever returned.  It never leaves the model. *)
Theorem validate_doc_every_call `{B : Backend} `{E : Engine}
    (args : list lua_value) (w : xworld) :
  let doc := to_userdata (arg args 0) in
  match xcall validate_doc args w with
  | XReturned rets evs =>
      doc ≠ NULL /\
      rets = [LBoolean (bool_decide (saml_doc_validate w doc ≠ 0))] /\
      evs = [inr (EvSamlDocValidate doc (saml_doc_validate w doc))]
  | XErrored e evs => doc = NULL /\ e = ArgError 1 "`xmlDoc*' expected" /\ evs = []
  | XUndefined => False
  end.
Proof.
  unfold validate_doc, arg.
  destruct args as [|a1 rest]; xcall; [done|].
  destruct a1; xcall; try done.
  all: case_bool_decide as Hd; xcall; done.
Qed.

(** X26. Every call of [key_load_cert] and of [key_load_cert_file]: without
    a key it raises an error on argument 1, without a string an error on
    argument 2, in both cases before xmlsec is asked; otherwise xmlsec is
    asked once to attach the certificate to that key (the bytes as they are
    for [key_load_cert], the file name as a C string for
    [key_load_cert_file]) and the result is true, or false for a negative
    status.  Neither leaves the model. *)
Theorem key_load_cert_every_call `{B : Backend} `{E : Engine}
    (args : list lua_value) (w : xworld) :
  let key := to_userdata (arg args 0) in
  match xcall key_load_cert args w with
  | XReturned rets evs =>
      key ≠ NULL /\
      exists cert, to_lstring (arg args 1) = Some cert /\
        let res := xmlSecCryptoAppKeyCertLoadMemory w key cert in
        rets = [LBoolean (bool_decide (¬ res < 0))] /\
        evs = [inr (EvKeyCertLoadMemory key cert res)]
  | XErrored e evs =>
      evs = [] /\ ((key = NULL /\ e = ArgError 1 "`xmlSecKey*' expected") \/
                   (key ≠ NULL /\ to_lstring (arg args 1) = None /\
                    exists msg, e = ArgError 2 msg))
  | XUndefined => False
  end
  /\ match xcall key_load_cert_file args w with
     | XReturned rets evs =>
         key ≠ NULL /\
         exists file, to_lstring (arg args 1) = Some file /\
           let res := xmlSecCryptoAppKeyCertLoad w key (c_str file) in
           rets = [LBoolean (bool_decide (¬ res < 0))] /\
           evs = [inr (EvKeyCertLoad key (c_str file) res)]
     | XErrored e evs =>
         evs = [] /\ ((key = NULL /\ e = ArgError 1 "`xmlSecKey*' expected") \/
                      (key ≠ NULL /\ to_lstring (arg args 1) = None /\
                       exists msg, e = ArgError 2 msg))
     | XUndefined => False
     end.
Proof.
  unfold key_load_cert, key_load_cert_file, arg. split.
  all: destruct args as [|a1 [|a2 rest]]; xcall; try (split; [done|]; left; done).
  all: destruct a1; xcall; try (split; [done|]; left; done).
  all: case_bool_decide as Hk; xcall; try (split; [done|]; left; done).
  all: try (split; [done|]; right; split_and!; try done; by eexists).
  all: destruct a2; xcall.
  all: try (split; [done|]; right; split_and!; try done; by eexists).
  all: case_decide as Hres; xcall; (split; [done|]); eexists; (split; [reflexivity|]).
  all: cbv zeta; split; [|reflexivity].
  all: try (rewrite bool_decide_eq_false_2 by (intros Hn; exact (Hn Hres)); reflexivity).
  all: try (rewrite bool_decide_eq_true_2 by exact Hres; reflexivity).
Qed.

